(** * MARIANA AI : the research page controller of static/script.js

    A shallow embedding of the page script: the report renderer
    ([renderReport]) with its two emphasis substitutions, the subtopic
    status rows ([renderSubTopicList], [updateSubTopicStatus]), the socket
    event handlers and the submit action ([startResearch]).

    JavaScript strings are sequences of UTF-16 code units; they are modelled
    as lists of code units so that [substring], [startsWith], [trim] and the
    regular expression dot count exactly what the script counts. *)

From Stdlib Require Import String Ascii.
From stdpp Require Import base numbers list.

Open Scope N_scope.
Open Scope list_scope.

(** ** JavaScript strings *)

Module JS.

Abbreviation jsstring := (list N).

(** A source literal as code units. *)
Definition js (s : string) : jsstring :=
  map N_of_ascii (list_ascii_of_string s).

(** A markup literal of the source, written here with the apostrophe
    standing for the double quote of the script's attribute values (no
    literal of the script holds an apostrophe). *)
Definition html (s : string) : jsstring :=
  map (fun c => if c =? 39 then 34 else c) (js s).

Arguments js _%_string.
Arguments html _%_string.

Definition nl : jsstring := [10].

Fixpoint streq (a b : jsstring) : bool :=
  match a, b with
  | [], [] => true
  | x :: a', y :: b' => (x =? y) && streq a' b'
  | _, _ => false
  end.

(** [s.startsWith(p)] *)
Fixpoint startsWith (p s : jsstring) : bool :=
  match p, s with
  | [], _ => true
  | x :: p', y :: s' => (x =? y) && startsWith p' s'
  | _ :: _, [] => false
  end.

(** [s.substring(n)] for a literal [n >= 0]: the index is clamped to the
    length, so a shorter string gives the empty string. *)
Definition substring (n : nat) (s : jsstring) : jsstring := drop n s.

(** [s.split(sep)] for a non-empty string separator: the separators are
    found left to right without overlap, and the pieces between them are
    kept, empty ones included.  [cur] holds the piece being read, reversed. *)
Fixpoint split_from (fuel : nat) (sep cur s : jsstring) : list jsstring :=
  match fuel with
  | O => [rev cur ++ s]
  | S fuel' =>
      match s with
      | [] => [rev cur]
      | c :: s' =>
          if startsWith sep s
          then rev cur :: split_from fuel' sep [] (drop (length sep) s)
          else split_from fuel' sep (c :: cur) s'
      end
  end.

Definition split (sep s : jsstring) : list jsstring :=
  split_from (S (length s)) sep [] s.

(** [a.join('')] *)
Definition join (l : list jsstring) : jsstring := concat l.

(** *** Regular expressions of the script

    Both patterns have the shape  open (.*?) close  with literal [open] and
    [close].  The dot matches any code unit except the line terminators. *)

Definition isLineTerminator (c : N) : bool :=
  (c =? 10) || (c =? 13) || (c =? 8232) || (c =? 8233).

(** [(.*?)close] at the head of [s]: the lazy star first tries the empty
    span, and grows it by one code unit each time [close] does not follow.
    Returns the captured span and what is left of [s] after [close]. *)
Fixpoint lazy_dots (close s : jsstring) : option (jsstring * jsstring) :=
  if startsWith close s then Some ([], drop (length close) s)
  else match s with
       | [] => None
       | c :: s' =>
           if isLineTerminator c then None
           else match lazy_dots close s' with
                | Some (x, r) => Some (c :: x, r)
                | None => None
                end
       end.

(** One attempt of  open(.*?)close  at the head of [s]. *)
Definition match_here (open close s : jsstring) : option (jsstring * jsstring) :=
  if startsWith open s then lazy_dots close (drop (length open) s) else None.

(** [s.replace(/open(.*?)close/g, before$1after)]: the leftmost match is
    replaced, and the scan goes on after it; where no match starts the code
    unit is kept. *)
Fixpoint replace_from (fuel : nat) (open close before after s : jsstring) : jsstring :=
  match fuel with
  | O => s
  | S fuel' =>
      match s with
      | [] => []
      | c :: s' =>
          match match_here open close s with
          | Some (x, r) =>
              before ++ x ++ after ++ replace_from fuel' open close before after r
          | None => c :: replace_from fuel' open close before after s'
          end
      end
  end.

Definition replace (open close before after s : jsstring) : jsstring :=
  replace_from (length s) open close before after s.

(** *** [String.prototype.trim] *)

(** WhiteSpace and LineTerminator code units of ECMAScript. *)
Definition isWhiteSpace (c : N) : bool :=
  (c =? 9) || (c =? 10) || (c =? 11) || (c =? 12) || (c =? 13) || (c =? 32)
  || (c =? 160) || (c =? 5760) || ((8192 <=? c) && (c <=? 8202))
  || (c =? 8232) || (c =? 8233) || (c =? 8239) || (c =? 8287)
  || (c =? 12288) || (c =? 65279).

Fixpoint trimStart (s : jsstring) : jsstring :=
  match s with
  | c :: s' => if isWhiteSpace c then trimStart s' else s
  | [] => []
  end.

Definition trim (s : jsstring) : jsstring :=
  rev (trimStart (rev (trimStart s))).

(** Truthiness of a string: only the empty string is falsy. *)
Definition truthy (s : jsstring) : bool :=
  match s with [] => false | _ => true end.

End JS.

Import JS.

(** ** The report renderer *)

Module Report.

Definition STRONG_OPEN : jsstring :=
  html "<strong class='font-semibold text-gray-900 dark:text-gray-100'>".
Definition STRONG_CLOSE : jsstring := js "</strong>".
Definition EM_OPEN : jsstring := js "<em>".
Definition EM_CLOSE : jsstring := js "</em>".

(** The two chained [replace] calls at the head of [renderReport]. *)
Definition strongPass (s : jsstring) : jsstring :=
  replace (js "**") (js "**") STRONG_OPEN STRONG_CLOSE s.

Definition emPass (s : jsstring) : jsstring :=
  replace (js "*") (js "*") EM_OPEN EM_CLOSE s.

Definition inlineFormat (report : jsstring) : jsstring :=
  emPass (strongPass report).

Definition H3_OPEN : jsstring := html "<h3 class='text-xl font-bold mb-2 mt-4 text-gray-100'>".
Definition H2_OPEN : jsstring :=
  html "<h2 class='text-2xl font-bold mb-3 mt-5 text-white border-b border-zinc-700 pb-2'>".
Definition H1_OPEN : jsstring := html "<h1 class='text-3xl font-bold mb-4 mt-6 text-white'>".
Definition LI_OPEN : jsstring := html "<li class='mb-1'>".
Definition UL_OPEN : jsstring := html "<ul class='list-disc pl-6 space-y-1 my-4'>".
Definition P_OPEN : jsstring := html "<p class='mb-4 text-gray-300 leading-relaxed'>".

(** The callback mapped over the blocks. *)
Definition renderBlock (block : jsstring) : jsstring :=
  if startsWith (js "### ") block then H3_OPEN ++ substring 4 block ++ js "</h3>"
  else if startsWith (js "## ") block then H2_OPEN ++ substring 3 block ++ js "</h2>"
  else if startsWith (js "# ") block then H1_OPEN ++ substring 2 block ++ js "</h1>"
  else if startsWith (js "- ") block then
    let items :=
      join (map (fun item => LI_OPEN ++ substring 2 item ++ js "</li>")
                (split nl block)) in
    UL_OPEN ++ items ++ js "</ul>"
  else P_OPEN ++ block ++ js "</p>".

(** The value of [html] in [renderReport] before it is framed by the title. *)
Definition renderBody (report : jsstring) : jsstring :=
  join (map renderBlock (split (nl ++ nl) (inlineFormat report))).

End Report.

Import Report.

(** ** The page: elements, handlers and the submit action *)

Module Page.

(** *** SVG icons *)

Definition icon_loader : jsstring :=
  html "<svg class='animate-spin h-5 w-5' xmlns='http://www.w3.org/2000/svg' fill='none' viewBox='0 0 24 24'><circle class='opacity-25' cx='12' cy='12' r='10' stroke='currentColor' stroke-width='4'></circle><path class='opacity-75' fill='currentColor' d='M4 12a8 8 0 018-8V0C5.373 0 0 5.373 0 12h4zm2 5.291A7.962 7.962 0 014 12H0c0 3.042 1.135 5.824 3 7.938l3-2.647z'></path></svg>".
Definition icon_check : jsstring :=
  html "<svg class='h-5 w-5' viewBox='0 0 20 20' fill='currentColor'><path fill-rule='evenodd' d='M10 18a8 8 0 100-16 8 8 0 000 16zm3.707-9.293a1 1 0 00-1.414-1.414L9 10.586 7.707 9.293a1 1 0 00-1.414 1.414l2 2a1 1 0 001.414 0l4-4z' clip-rule='evenodd' /></svg>".
Definition icon_error : jsstring :=
  html "<svg class='h-5 w-5' viewBox='0 0 20 20' fill='currentColor'><path fill-rule='evenodd' d='M10 18a8 8 0 100-16 8 8 0 000 16zM8.707 7.293a1 1 0 00-1.414 1.414L8.586 10l-1.293 1.293a1 1 0 101.414 1.414L10 11.414l1.293 1.293a1 1 0 001.414-1.414L11.414 10l1.293-1.293a1 1 0 00-1.414-1.414L10 8.586 8.707 7.293z' clip-rule='evenodd' /></svg>".
Definition icon_dot : jsstring :=
  html "<svg class='h-3 w-3' viewBox='0 0 20 20' fill='currentColor'><circle cx='10' cy='10' r='8' /></svg>".
Definition icon_airplane : jsstring :=
  html "<svg class='h-5 w-5' viewBox='0 0 20 20' fill='currentColor'><path d='M10.894 2.553a1 1 0 00-1.788 0l-7 14a1 1 0 001.169 1.409l5-1.429A1 1 0 009 15.571V11a1 1 0 112 0v4.571a1 1 0 00.725.962l5 1.428a1 1 0 001.17-1.408l-7-14z' /></svg>".

(** *** Elements

    Each element keeps the properties the script reads or writes. *)

Record Input := { in_value : jsstring; in_disabled : bool }.

Record Button := {
  btn_disabled : bool;
  btn_cursor_wait : bool;          (* 'cursor-wait' in classList *)
  btn_innerHTML : jsstring }.

(** The status line: its text, and the class of the [span] inside it when
    there is one.  Writing [textContent] replaces every child by one text
    node, so the [span] is gone afterwards. *)
Record StatusLine := { sl_textContent : jsstring; sl_span : option jsstring }.

(** One [li] of [ul#subtopics-ul] as the list template builds it for a label
    that holds no tag: the label is text, and the [div] that
    [querySelector('div')] finds in the row is its status [div]. *)
Record Row := {
  li_className : jsstring;
  li_label : jsstring;
  div_className : jsstring;
  div_innerHTML : jsstring }.

Record Panel := { pn_innerHTML : jsstring; pn_display : jsstring }.

(** The page.  [subtopics_ul] is the list of the subtopic container: [None]
    when the container holds no [ul#subtopics-ul], otherwise the [li]
    children that the list template gives for labels that hold no tag.

    The script writes labels, report and title into [innerHTML] as they
    come, and looks three elements up at the time of use:
    [getElementById('subtopics-ul')] and [querySelector('#status-message span')]
    over the whole document, [querySelector('div')] inside a row.  A payload
    that holds a tag can bring elements that these lookups find.  They are
    not recorded; [injected] records that a payload with a tag has been
    written into a container since the containers were last emptied.  While
    [injected] is [false] the lookups find what is recorded here (the page as
    served gives the two ids to no other element): the list is
    [subtopics_ul], the first [div] of a row is its status [div], and the
    only span the selector can match is the status line's own [sl_span]. *)
Record UI := {
  topicInput : Input;
  startResearchBtn : Button;
  errorMessage : jsstring;          (* textContent *)
  statusMessage : StatusLine;
  subtopics_ul : option (list Row);
  reportContainer : Panel;
  currentTopic : jsstring;
  injected : bool }.

Definition set_topicInput (x : Input) (st : UI) : UI :=
  {| topicInput := x; startResearchBtn := startResearchBtn st;
     errorMessage := errorMessage st; statusMessage := statusMessage st;
     subtopics_ul := subtopics_ul st; reportContainer := reportContainer st;
     currentTopic := currentTopic st; injected := injected st |}.
Definition set_startResearchBtn (x : Button) (st : UI) : UI :=
  {| topicInput := topicInput st; startResearchBtn := x;
     errorMessage := errorMessage st; statusMessage := statusMessage st;
     subtopics_ul := subtopics_ul st; reportContainer := reportContainer st;
     currentTopic := currentTopic st; injected := injected st |}.
Definition set_errorMessage (x : jsstring) (st : UI) : UI :=
  {| topicInput := topicInput st; startResearchBtn := startResearchBtn st;
     errorMessage := x; statusMessage := statusMessage st;
     subtopics_ul := subtopics_ul st; reportContainer := reportContainer st;
     currentTopic := currentTopic st; injected := injected st |}.
Definition set_statusMessage (x : StatusLine) (st : UI) : UI :=
  {| topicInput := topicInput st; startResearchBtn := startResearchBtn st;
     errorMessage := errorMessage st; statusMessage := x;
     subtopics_ul := subtopics_ul st; reportContainer := reportContainer st;
     currentTopic := currentTopic st; injected := injected st |}.
Definition set_subtopics_ul (x : option (list Row)) (st : UI) : UI :=
  {| topicInput := topicInput st; startResearchBtn := startResearchBtn st;
     errorMessage := errorMessage st; statusMessage := statusMessage st;
     subtopics_ul := x; reportContainer := reportContainer st;
     currentTopic := currentTopic st; injected := injected st |}.
Definition set_reportContainer (x : Panel) (st : UI) : UI :=
  {| topicInput := topicInput st; startResearchBtn := startResearchBtn st;
     errorMessage := errorMessage st; statusMessage := statusMessage st;
     subtopics_ul := subtopics_ul st; reportContainer := x;
     currentTopic := currentTopic st; injected := injected st |}.
Definition set_currentTopic (x : jsstring) (st : UI) : UI :=
  {| topicInput := topicInput st; startResearchBtn := startResearchBtn st;
     errorMessage := errorMessage st; statusMessage := statusMessage st;
     subtopics_ul := subtopics_ul st; reportContainer := reportContainer st;
     currentTopic := x; injected := injected st |}.
Definition set_injected (x : bool) (st : UI) : UI :=
  {| topicInput := topicInput st; startResearchBtn := startResearchBtn st;
     errorMessage := errorMessage st; statusMessage := statusMessage st;
     subtopics_ul := subtopics_ul st; reportContainer := reportContainer st;
     currentTopic := currentTopic st; injected := x |}.

(** A payload holds a tag when it holds a [<]: written into [innerHTML],
    a text without one gives text nodes only. *)
Definition hasMarkup (s : jsstring) : bool := existsb (fun c => c =? 60) s.

(** [statusMessage.textContent = t] *)
Definition set_statusText (t : jsstring) (st : UI) : UI :=
  set_statusMessage {| sl_textContent := t; sl_span := None |} st.

(** *** UI state *)

Definition setUIState (isResearching : bool) (st : UI) : UI :=
  let value := in_value (topicInput st) in
  let st := set_topicInput {| in_value := value; in_disabled := isResearching |} st in
  set_startResearchBtn
    {| btn_disabled := isResearching || negb (truthy (trim value));
       btn_cursor_wait := isResearching;
       btn_innerHTML :=
         if isResearching
         then icon_loader ++ js "<span>Researching...</span>"
         else icon_airplane ++ js "<span>Start Research</span>" |} st.

Definition resetUI (st : UI) : UI :=
  let st := set_errorMessage [] st in
  let st := set_subtopics_ul None st in
  let st := set_reportContainer {| pn_innerHTML := []; pn_display := js "none" |} st in
  let st := set_injected false st in   (* both containers are empty *)
  let st := set_statusText (js "Ready to start your research.") st in
  setUIState false st.

(** [document.querySelector('#status-message span')]: on a page without
    injected elements the match, if any, is the span of the status line. *)
Definition setStatusColor (cls : jsstring) (st : UI) : UI :=
  match sl_span (statusMessage st) with
  | Some _ =>
      set_statusMessage
        {| sl_textContent := sl_textContent (statusMessage st);
           sl_span := Some (js "inline-block h-2 w-2 rounded-full " ++ cls) |} st
  | None => st
  end.

(** *** Render functions *)

Definition LI_BASE : jsstring :=
  js "flex items-center justify-between p-3 bg-white dark:bg-zinc-800 rounded-lg border-l-4 ".
Definition DIV_BASE : jsstring := js "flex items-center gap-2 text-sm font-medium ".

Definition spaces (n : nat) : jsstring := repeat 32 n.

(** The row that the list template writes for one subtopic. *)
Definition templateRow (topic : jsstring) : Row :=
  {| li_className := LI_BASE ++ js "border-gray-300 dark:border-zinc-600";
     li_label := topic;
     div_className := DIV_BASE ++ js "text-gray-500 dark:text-gray-400";
     div_innerHTML :=
       nl ++ spaces 16 ++ icon_dot ++
       nl ++ spaces 16 ++ html "<span class='capitalize'>pending</span>" ++
       nl ++ spaces 14 |}.

(** The labels go into the markup of the list unescaped.  For labels
    without a tag the list has one template row per subtopic; a label with a
    tag is recorded in [injected], the rows it really gives are not. *)
Definition renderSubTopicList (subTopics : list jsstring) (st : UI) : UI :=
  let st := set_injected (injected st || existsb hasMarkup subTopics) st in
  set_subtopics_ul (Some (map templateRow subTopics)) st.

(** A property value as the script reads it: a string, or [undefined]. *)
Inductive value := Undefined | Str (s : jsstring).

(** A value placed in a template literal. *)
Definition interp (v : value) : jsstring :=
  match v with Undefined => js "undefined" | Str s => s end.

Record StatusInfo := { icon : value; text : value; color : value; border : value }.

(** The own properties of the [statusInfo] object literal. *)
Definition statusInfo : list (jsstring * StatusInfo) :=
  [ (js "pending",
     {| icon := Str icon_dot; text := Str (js "pending");
        color := Str (js "text-gray-500 dark:text-gray-400");
        border := Str (js "border-gray-300 dark:border-zinc-600") |});
    (js "in-progress",
     {| icon := Str icon_loader; text := Str (js "in progress");
        color := Str (js "text-sky-500 dark:text-sky-400");
        border := Str (js "border-sky-500") |});
    (js "complete",
     {| icon := Str icon_check; text := Str (js "complete");
        color := Str (js "text-emerald-500 dark:text-emerald-400");
        border := Str (js "border-emerald-500") |});
    (js "error",
     {| icon := Str icon_error; text := Str (js "error");
        color := Str (js "text-rose-500 dark:text-rose-400");
        border := Str (js "border-rose-500") |}) ].

(** An object literal inherits from [Object.prototype]; these are its
    property names.  Each holds a function (or, for [__proto__], the
    prototype object itself): a truthy value with none of the four
    properties read by the script. *)
Definition Object_prototype : list jsstring :=
  [ js "constructor"; js "__defineGetter__"; js "__defineSetter__";
    js "hasOwnProperty"; js "__lookupGetter__"; js "__lookupSetter__";
    js "isPrototypeOf"; js "propertyIsEnumerable"; js "toString";
    js "valueOf"; js "__proto__"; js "toLocaleString" ].

Fixpoint assoc {A} (k : jsstring) (l : list (jsstring * A)) : option A :=
  match l with
  | [] => None
  | (k', v) :: l' => if streq k k' then Some v else assoc k l'
  end.

Definition inherited : StatusInfo :=
  {| icon := Undefined; text := Undefined; color := Undefined; border := Undefined |}.

(** [statusInfo[status]]: [None] is [undefined], the only falsy outcome. *)
Definition statusInfo_get (status : jsstring) : option StatusInfo :=
  match assoc status statusInfo with
  | Some i => Some i
  | None => if existsb (streq status) Object_prototype then Some inherited else None
  end.

(** [ul.children[index]] for an integer [index]. *)
Definition children_at (rows : list Row) (index : Z) : option Row :=
  if (0 <=? index)%Z then rows !! Z.to_nat index else None.

(** The writes of lines 119 to 121 on a row and on
    [listItem.querySelector('div')], which is the status [div] of the row
    when the label holds no tag. *)
Definition patchRow (currentStatus : StatusInfo) (listItem : Row) : Row :=
  {| li_className := LI_BASE ++ interp (border currentStatus);
     li_label := li_label listItem;
     div_className := DIV_BASE ++ interp (color currentStatus);
     div_innerHTML :=
       interp (icon currentStatus) ++ html "<span class='capitalize'>"
       ++ interp (text currentStatus) ++ js "</span>" |}.

Definition updateSubTopicStatus (index : Z) (status : jsstring) (st : UI) : UI :=
  match subtopics_ul st with
  | None => st
  | Some rows =>
      match children_at rows index with
      | None => st
      | Some listItem =>
          match statusInfo_get status with
          | Some currentStatus =>
              set_subtopics_ul
                (Some (<[Z.to_nat index := patchRow currentStatus listItem]> rows)) st
          | None => st
          end
      end
  end.

Definition renderReport (report : jsstring) (st : UI) : UI :=
  let html_ := renderBody report in
  let reportHTML :=
    nl ++ spaces 6 ++
    html "<h2 class='text-3xl font-extrabold text-white'>Final Report: <span class='text-sky-400'>"
    ++ currentTopic st ++ js "</span></h2>" ++
    nl ++ spaces 6 ++
    html "<div class='mt-6 p-6 sm:p-8 bg-zinc-900/80 rounded-xl shadow-2xl border border-zinc-800 backdrop-blur-sm'>" ++
    nl ++ spaces 8 ++ html_ ++
    nl ++ spaces 6 ++ js "</div>" ++
    nl ++ spaces 4 in
  (* report and title reach the panel unescaped *)
  let st :=
    set_injected (injected st || hasMarkup report || hasMarkup (currentTopic st)) st in
  set_reportContainer {| pn_innerHTML := reportHTML; pn_display := js "block" |} st.

(** *** WebSocket events *)

Definition on_status_update (message : jsstring) (st : UI) : UI :=
  set_statusText message st.

Definition on_sub_topics_generated (sub_topics : list jsstring) (st : UI) : UI :=
  renderSubTopicList sub_topics (setStatusColor (js "bg-sky-500") st).

Definition on_sub_topic_update (index : Z) (status : jsstring) (st : UI) : UI :=
  updateSubTopicStatus index status st.

Definition on_final_report (report : jsstring) (st : UI) : UI :=
  setUIState false (setStatusColor (js "bg-emerald-500") (renderReport report st)).

Definition on_research_error (error : jsstring) (st : UI) : UI :=
  let st := set_errorMessage error st in
  let st := set_statusText (js "An error occurred.") st in
  let st := setStatusColor (js "bg-rose-500") st in
  setUIState false st.

(** *** Start research *)

Inductive Outbound := start_research (topic : jsstring).

Definition startResearch (st : UI) : UI * list Outbound :=
  let topic := in_value (topicInput st) in
  if negb (truthy (trim topic)) then
    (set_errorMessage (js "Please enter a research topic.") st, [])
  else
    let st := set_currentTopic topic st in
    let st := resetUI st in
    let st := setUIState true st in
    (st, [start_research topic]).

(** *** The page as a reactor

    Everything that can run a handler: the five socket events, typing in
    the topic field, a click on the button, and Enter in the topic field. *)

Inductive Event :=
| status_update (message : jsstring)
| sub_topics_generated (sub_topics : list jsstring)
| sub_topic_update (index : Z) (status : jsstring)
| final_report (report : jsstring)
| research_error (error : jsstring)
| input (value : jsstring)
| click
| keyup_Enter.

Definition handle (ev : Event) (st : UI) : UI * list Outbound :=
  match ev with
  | status_update message => (on_status_update message st, [])
  | sub_topics_generated sub_topics => (on_sub_topics_generated sub_topics st, [])
  | sub_topic_update index status => (on_sub_topic_update index status st, [])
  | final_report report => (on_final_report report st, [])
  | research_error error => (on_research_error error st, [])
  | input value =>
      (setUIState false
         (set_topicInput {| in_value := value;
                            in_disabled := in_disabled (topicInput st) |} st), [])
  | click => startResearch st
  | keyup_Enter => startResearch st
  end.

(** The browser delivers no input to a disabled field.  Clicks and key
    events are left unconstrained. *)
Definition deliverable (ev : Event) (st : UI) : Prop :=
  match ev with
  | input _ => in_disabled (topicInput st) = false
  | _ => True
  end.

(** The page after the script has run at load time, over any document. *)
Definition loaded (doc : UI) : UI := setUIState false (set_currentTopic [] doc).

Inductive reachable : UI -> Prop :=
| reach_loaded doc : reachable (loaded doc)
| reach_step st ev :
    reachable st -> deliverable ev st -> reachable (fst (handle ev st)).

End Page.

Import Page.

(** ** Notions used to state the properties *)

Module Props.

(** The report document: one node per block. *)
Inductive Block :=
| Heading (level : nat) (text : jsstring)
| BulletList (items : list jsstring)
| Paragraph (text : jsstring).

(** Classification of one raw block by prefix, in priority order, with the
    width of the marker stripped; the items of a bullet block are its lines
    without the two leading code units of the marker. *)
Definition classify (block : jsstring) : Block :=
  if startsWith (js "### ") block then Heading 3 (drop 4 block)
  else if startsWith (js "## ") block then Heading 2 (drop 3 block)
  else if startsWith (js "# ") block then Heading 1 (drop 2 block)
  else if startsWith (js "- ") block then BulletList (map (drop 2) (split nl block))
  else Paragraph block.

(** The same classification made on the raw block, the payload being
    formatted afterwards: the text of a heading or paragraph as a whole, the
    lines of a bullet block one by one before the marker width is taken off. *)
Definition classifyThenFormat (block : jsstring) : Block :=
  if startsWith (js "### ") block then Heading 3 (inlineFormat (drop 4 block))
  else if startsWith (js "## ") block then Heading 2 (inlineFormat (drop 3 block))
  else if startsWith (js "# ") block then Heading 1 (inlineFormat (drop 2 block))
  else if startsWith (js "- ") block then
    BulletList (map (fun line => drop 2 (inlineFormat line)) (split nl block))
  else Paragraph (inlineFormat block).

(** Blocks are separated by a blank line. *)
Definition blocks (text : jsstring) : list Block :=
  map classify (split (nl ++ nl) text).

(** The markup the page uses for a node. *)
Definition blockHTML (b : Block) : jsstring :=
  match b with
  | Heading 3 t => H3_OPEN ++ t ++ js "</h3>"
  | Heading 2 t => H2_OPEN ++ t ++ js "</h2>"
  | Heading _ t => H1_OPEN ++ t ++ js "</h1>"
  | BulletList items =>
      UL_OPEN ++ concat (map (fun t => LI_OPEN ++ t ++ js "</li>") items) ++ js "</ul>"
  | Paragraph t => P_OPEN ++ t ++ js "</p>"
  end.

Definition toHTML (doc : list Block) : jsstring := concat (map blockHTML doc).

(** Put [p] in front of the first piece of a split. *)
Definition prepend (p : jsstring) (l : list jsstring) : list jsstring :=
  match l with
  | q :: l' => (p ++ q) :: l'
  | [] => []
  end.

(** The item of one line of a bullet block when only a line that starts
    with the marker loses it. *)
Definition markedItem (line : jsstring) : jsstring :=
  if startsWith (js "- ") line then drop 2 line else line.

(** Number of [*] code units. *)
Definition stars (s : jsstring) : nat := length (filter (fun c => c = 42) s).

(** The tags the renderer writes. *)
Definition rendererTags : list jsstring :=
  [ STRONG_OPEN; STRONG_CLOSE; EM_OPEN; EM_CLOSE;
    H3_OPEN; js "</h3>"; H2_OPEN; js "</h2>"; H1_OPEN; js "</h1>";
    UL_OPEN; js "</ul>"; LI_OPEN; js "</li>"; P_OPEN; js "</p>" ].

(** Every [<] of the markup opens one of the renderer's own tags: nothing
    else in it can start an element. *)
Fixpoint ownMarkup (out : jsstring) : bool :=
  match out with
  | [] => true
  | c :: out' =>
      (if c =? 60 then existsb (fun tag => startsWith tag out) rendererTags else true)
      && ownMarkup out'
  end.

(** What holds of each tag of the renderer: it is not empty, it is markup
    of the renderer, and it holds neither a star nor a line feed. *)
Definition tag_ok (tag : jsstring) : bool :=
  truthy tag && ownMarkup tag
  && forallb (fun c => negb (c =? 42) && negb (c =? 10)) tag.

(** Subtopic statuses and the order Pending, InProgress, then Complete or
    Error. *)
Inductive Status := Pending | InProgress | Complete | Error.

Definition statusName (s : Status) : jsstring :=
  match s with
  | Pending => js "pending"
  | InProgress => js "in-progress"
  | Complete => js "complete"
  | Error => js "error"
  end.

Definition rank (s : Status) : nat :=
  match s with Pending => 0 | InProgress => 1 | Complete => 2 | Error => 2 end.

(** A move is forward when it stays in place or goes up in the order;
    Complete and Error are both final. *)
Definition forward (a b : Status) : Prop :=
  a = b \/ (rank a < rank b)%nat.

(** The status a row displays, read from the classes of the row. *)
Definition displays (r : Row) (s : Status) : Prop :=
  match statusInfo_get (statusName s) with
  | Some i =>
      li_className r = LI_BASE ++ interp (border i)
      /\ div_className r = DIV_BASE ++ interp (color i)
  | None => False
  end.

(** The four status names of the protocol. *)
Definition knownStatus (status : jsstring) : Prop :=
  exists s, status = statusName s.

(** A page with nothing shown and an empty topic field, for examples. *)
Definition emptyPage : UI :=
  {| topicInput := {| in_value := []; in_disabled := false |};
     startResearchBtn :=
       {| btn_disabled := true; btn_cursor_wait := false; btn_innerHTML := [] |};
     errorMessage := [];
     statusMessage := {| sl_textContent := []; sl_span := None |};
     subtopics_ul := None;
     reportContainer := {| pn_innerHTML := []; pn_display := js "none" |};
     currentTopic := [];
     injected := false |}.

(** While the field is disabled it holds the topic that was submitted. *)
Definition busy_has_topic (st : UI) : Prop :=
  in_disabled (topicInput st) = true -> trim (in_value (topicInput st)) <> [].

(** The page once the user has typed [topic] in the field. *)
Definition typed (topic : jsstring) (st : UI) : UI := fst (handle (input topic) st).

End Props.

Import Props.

(** ** Runs of the page and further notions *)

Module Runs.

(** The page handles events one at a time; a run collects what it sends. *)
Fixpoint run (evs : list Event) (st : UI) : UI * list Outbound :=
  match evs with
  | [] => (st, [])
  | ev :: evs' =>
      let (st1, out1) := handle ev st in
      let (st2, out2) := run evs' st1 in
      (st2, out1 ++ out2)
  end.

(** [a.join(sep)]: the pieces with the separator between them. *)
Fixpoint joinWith (sep : jsstring) (l : list jsstring) : jsstring :=
  match l with
  | [] => []
  | [x] => x
  | x :: l' => x ++ sep ++ joinWith sep l'
  end.

(** The controls agree with the topic field: the button waits exactly while
    the field is disabled, and is disabled while it waits or the field is
    blank. *)
Definition controls_consistent (st : UI) : Prop :=
  let busy := in_disabled (topicInput st) in
  btn_disabled (startResearchBtn st)
  = busy || negb (truthy (trim (in_value (topicInput st))))
  /\ btn_cursor_wait (startResearchBtn st) = busy
  /\ btn_innerHTML (startResearchBtn st)
     = if busy then icon_loader ++ js "<span>Researching...</span>"
       else icon_airplane ++ js "<span>Start Research</span>".

(** The rows of the list after [updateSubTopicStatus]. *)
Definition patchRows (index : Z) (status : jsstring) (rows : list Row) : list Row :=
  match children_at rows index, statusInfo_get status with
  | Some listItem, Some currentStatus =>
      <[Z.to_nat index := patchRow currentStatus listItem]> rows
  | _, _ => rows
  end.

(** A row shows a status when it carries all that an update to that status
    writes: the class of the row, the class of its status [div], and the
    icon and the word inside the [div]. *)
Definition shows (r : Row) (s : Status) : Prop :=
  match statusInfo_get (statusName s) with
  | Some i =>
      li_className r = LI_BASE ++ interp (border i)
      /\ div_className r = DIV_BASE ++ interp (color i)
      /\ div_innerHTML r
         = interp (icon i) ++ html "<span class='capitalize'>"
           ++ interp (text i) ++ js "</span>"
  | None => False
  end.

(** The events that report progress of a running session. *)
Definition progress (ev : Event) : Prop :=
  match ev with
  | status_update _ | sub_topics_generated _ | sub_topic_update _ _ => True
  | _ => False
  end.

(** No code unit of the string is a line terminator. *)
Definition oneLine (s : jsstring) : Prop :=
  Forall (fun c => isLineTerminator c = false) s.

(** Every code unit of the string is white space. *)
Definition blank (s : jsstring) : Prop :=
  Forall (fun c => isWhiteSpace c = true) s.

End Runs.

Import Runs.

(** ** Facts about the string operations *)

Section StringFacts.

Implicit Types (s p r x : jsstring) (c : N).

Lemma streq_eq a b : streq a b = true <-> a = b.
Proof.
  revert b; induction a as [|x a IH]; intros [|y b]; simpl; try (split; congruence).
  rewrite andb_true_iff, N.eqb_eq, IH. split; [intros [-> ->]|intros [= -> ->]]; auto.
Qed.

Lemma startsWith_spec p s : startsWith p s = true <-> exists r, s = p ++ r.
Proof.
  revert s; induction p as [|x p IH]; intros s; simpl.
  - split; eauto.
  - destruct s as [|y s].
    + split; [discriminate|intros [r Hr]; discriminate].
    + rewrite andb_true_iff, N.eqb_eq, IH. split.
      * intros [-> [r ->]]. eauto.
      * intros [r [= -> ->]]. eauto.
Qed.

Lemma startsWith_app p s : startsWith p (p ++ s) = true.
Proof. apply startsWith_spec; eauto. Qed.

Lemma startsWith_app_l p s b : startsWith p s = true -> startsWith p (s ++ b) = true.
Proof. intros [r ->]%startsWith_spec. rewrite <- app_assoc. apply startsWith_app. Qed.

(** A prefix that lacks [c] cannot reach past a [c]. *)
Lemma startsWith_cut p x c r :
  c ∉ p -> startsWith p (x ++ c :: r) = true -> startsWith p x = true.
Proof.
  revert x; induction p as [|a p IH]; intros x Hc; [done|].
  apply not_elem_of_cons in Hc as [Hca Hc].
  destruct x as [|d x]; simpl.
  - rewrite andb_true_iff, N.eqb_eq. intros [-> _]. done.
  - rewrite !andb_true_iff. intros [-> H]. split; [done|]. by apply IH.
Qed.

Lemma startsWith_drop p s : startsWith p s = true -> p ++ drop (length p) s = s.
Proof. intros [r ->]%startsWith_spec. by rewrite drop_app_length. Qed.

Lemma lazy_dots_Some close s x r :
  lazy_dots close s = Some (x, r) -> s = x ++ close ++ r.
Proof.
  revert x r; induction s as [|c s IH]; intros x r; simpl.
  - destruct (startsWith close []) eqn:E; [|discriminate].
    intros [= <- <-]. by rewrite (startsWith_drop _ _ E).
  - destruct (startsWith close (c :: s)) eqn:E.
    + intros [= <- <-]. by rewrite (startsWith_drop _ _ E).
    + destruct (isLineTerminator c); [discriminate|].
      destruct (lazy_dots close s) as [[x' r']|]; [|discriminate].
      intros [= <- <-]. by rewrite (IH x' r').
Qed.

Lemma match_here_Some open close s x r :
  match_here open close s = Some (x, r) -> s = open ++ x ++ close ++ r.
Proof.
  unfold match_here. destruct (startsWith open s) eqn:E; [|discriminate].
  intros H%lazy_dots_Some. by rewrite <- (startsWith_drop _ _ E), H.
Qed.

Lemma match_here_shorter open close s x r :
  (0 < length open)%nat ->
  match_here open close s = Some (x, r) -> (length r < length s)%nat.
Proof.
  intros Ho ->%match_here_Some. rewrite !length_app. lia.
Qed.

(** The scan never runs out of steps: any budget of at least the length of
    the string gives the same result. *)
Lemma replace_from_enough open close before after n m s :
  (0 < length open)%nat -> (length s <= n)%nat -> (length s <= m)%nat ->
  replace_from n open close before after s = replace_from m open close before after s.
Proof.
  intros Ho. revert m s; induction n as [|n IH]; intros m s Hn Hm.
  - destruct s; [|simpl in Hn; lia]. by destruct m.
  - destruct m as [|m]; [destruct s; [done|simpl in Hm; lia]|].
    simpl. destruct s as [|c s]; [done|].
    destruct (match_here open close (c :: s)) as [[x r]|] eqn:E.
    + pose proof (match_here_shorter _ _ _ _ _ Ho E) as Hr. simpl in *.
      do 3 f_equal. apply IH; lia.
    + f_equal. simpl in *. apply IH; lia.
Qed.

(** The equation of the global replace. *)
Lemma replace_cons open close before after c s :
  (0 < length open)%nat ->
  replace open close before after (c :: s) =
  match match_here open close (c :: s) with
  | Some (x, r) => before ++ x ++ after ++ replace open close before after r
  | None => c :: replace open close before after s
  end.
Proof.
  intros Ho. unfold replace at 1. simpl length. cbn [replace_from].
  destruct (match_here open close (c :: s)) as [[x r]|] eqn:E.
  - pose proof (match_here_shorter _ _ _ _ _ Ho E) as Hr. simpl in Hr.
    do 3 f_equal. apply replace_from_enough; [done|lia|lia].
  - done.
Qed.

(** A code unit is absent from a string: decided by a scan. *)
Lemma lacks_check (c : N) (s : jsstring) :
  forallb (fun d => negb (d =? c)) s = true -> c ∉ s.
Proof.
  rewrite forallb_forall. intros H Hin%list_elem_of_In.
  specialize (H c Hin). by rewrite N.eqb_refl in H.
Qed.

Lemma replace_nil open close before after : replace open close before after [] = [].
Proof. done. Qed.

End StringFacts.

Section SplitFacts.

Implicit Types (s sep cur : jsstring).

Lemma prepend_prepend p q l : prepend p (prepend q l) = prepend (p ++ q) l.
Proof. destruct l; simpl; [done|]. by rewrite app_assoc. Qed.

Lemma split_from_cur fuel sep cur s :
  split_from fuel sep cur s = prepend (rev cur) (split_from fuel sep [] s).
Proof.
  revert cur s; induction fuel as [|fuel IH]; intros cur s; simpl; [done|].
  destruct s as [|c s]; simpl.
  - by rewrite app_nil_r.
  - destruct (startsWith sep (c :: s)).
    + simpl. by rewrite app_nil_r.
    + rewrite (IH (c :: cur)), (IH [c]), prepend_prepend. done.
Qed.

Lemma split_from_enough sep n m cur s :
  (0 < length sep)%nat -> (length s < n)%nat -> (length s < m)%nat ->
  split_from n sep cur s = split_from m sep cur s.
Proof.
  intros Hsep. revert m cur s; induction n as [|n IH]; intros m cur s Hn Hm; [lia|].
  destruct m as [|m]; [lia|]. simpl.
  destruct s as [|c s]; [done|].
  destruct (startsWith sep (c :: s)) eqn:E.
  - f_equal. apply IH.
    + rewrite length_drop. simpl in *. lia.
    + rewrite length_drop. simpl in *. lia.
  - simpl in *. apply IH; lia.
Qed.

Lemma split_from_S fuel sep cur c s :
  split_from (S fuel) sep cur (c :: s) =
  if startsWith sep (c :: s)
  then rev cur :: split_from fuel sep [] (drop (length sep) (c :: s))
  else split_from fuel sep (c :: cur) s.
Proof. done. Qed.

Lemma split_nil sep : split sep [] = [[]].
Proof. done. Qed.

(** The equation of [split]: a separator at the head closes the current
    piece, any other code unit joins it. *)
Lemma split_cons sep c s :
  (0 < length sep)%nat ->
  split sep (c :: s) =
  if startsWith sep (c :: s)
  then [] :: split sep (drop (length sep) (c :: s))
  else prepend [c] (split sep s).
Proof.
  intros Hsep. unfold split at 1. rewrite split_from_S.
  destruct (startsWith sep (c :: s)) eqn:E.
  - simpl rev. f_equal. apply split_from_enough; [done| |lia].
    rewrite length_drop. simpl. lia.
  - rewrite split_from_cur. done.
Qed.

Lemma split_nonempty sep s : split sep s <> [].
Proof.
  unfold split. generalize (S (length s)) (@nil N).
  intros n; revert s; induction n as [|n IH]; intros s cur; simpl; [done|].
  destruct s as [|c s]; [done|]. destruct (startsWith sep (c :: s)); [done|]. apply IH.
Qed.

(** A text without the first code unit of the separator is one piece. *)
Lemma split_absent sep c0 sep' s :
  sep = c0 :: sep' -> c0 ∉ s -> split sep s = [s].
Proof.
  intros -> Hs. induction s as [|c s IH]; [done|].
  rewrite split_cons by (simpl; lia).
  apply not_elem_of_cons in Hs as [Hc Hs].
  simpl. destruct (c0 =? c) eqn:E; [apply N.eqb_eq in E; congruence|].
  simpl. rewrite IH by done. done.
Qed.

Lemma split_app_skip c0 sep u s :
  c0 ∉ u -> split (c0 :: sep) (u ++ s) = prepend u (split (c0 :: sep) s).
Proof.
  intros Hu. induction u as [|c u IH].
  - simpl. destruct (split (c0 :: sep) s) eqn:E; [by apply split_nonempty in E|done].
  - apply not_elem_of_cons in Hu as [Hc Hu].
    change ((c :: u) ++ s) with (c :: (u ++ s)).
    rewrite split_cons by (simpl; lia). simpl startsWith.
    destruct (c0 =? c) eqn:E; [apply N.eqb_eq in E; congruence|].
    simpl. rewrite IH by done. by rewrite prepend_prepend.
Qed.

End SplitFacts.

Section EmphasisFacts.

Implicit Types (s u v : jsstring).

Lemma stars_app u v : stars (u ++ v) = (stars u + stars v)%nat.
Proof. unfold stars. by rewrite filter_app, length_app. Qed.

Lemma stars_cons c s : (stars s <= stars (c :: s))%nat.
Proof. change (c :: s) with ([c] ++ s). rewrite stars_app. lia. Qed.

Lemma stars_0_notin s : stars s = 0%nat -> 42 ∉ s.
Proof.
  unfold stars. intros H Hin.
  assert (Hf : 42 ∈ filter (fun c => c = 42) s) by (apply list_elem_of_filter; done).
  destruct (filter (fun c => c = 42) s); [by apply elem_of_nil in Hf|discriminate].
Qed.

(** A match holds the stars of both delimiters. *)
Lemma match_here_stars open close s x r :
  match_here open close s = Some (x, r) ->
  (stars open + stars close <= stars s)%nat.
Proof. intros ->%match_here_Some. rewrite !stars_app. lia. Qed.

Lemma replace_few_stars open close before after s :
  (0 < length open)%nat -> (stars s < stars open + stars close)%nat ->
  replace open close before after s = s.
Proof.
  intros Ho. induction s as [|c s IH]; intros Hs; [done|].
  rewrite replace_cons by done.
  destruct (match_here open close (c :: s)) as [[x r]|] eqn:E.
  - apply match_here_stars in E. lia.
  - f_equal. apply IH. pose proof (stars_cons c s). lia.
Qed.

(** No match starts in a stretch that lacks the first code unit of the
    opening delimiter. *)
Lemma replace_app_skip o open close before after u s :
  o ∉ u ->
  replace (o :: open) close before after (u ++ s) =
  u ++ replace (o :: open) close before after s.
Proof.
  intros Hu. induction u as [|c u IH]; [done|].
  apply not_elem_of_cons in Hu as [Hc Hu].
  simpl app. rewrite replace_cons by (simpl; lia).
  unfold match_here. simpl startsWith.
  destruct (o =? c) eqn:E; [apply N.eqb_eq in E; congruence|].
  simpl. by rewrite IH.
Qed.

End EmphasisFacts.

Lemma inlineFormat_few_stars s : (stars s <= 1)%nat -> inlineFormat s = s.
Proof.
  assert (S2 : stars (js "**") = 2%nat) by done.
  assert (S1 : stars (js "*") = 1%nat) by done.
  intros Hs. unfold inlineFormat, strongPass, emPass.
  rewrite (replace_few_stars (js "**")); [|simpl; lia|lia].
  apply replace_few_stars; [simpl; lia|lia].
Qed.

Section Lines.

Implicit Types (s x y r open close : jsstring) (t c : N).

Lemma startsWith_length p s : startsWith p s = true -> (length p <= length s)%nat.
Proof. intros [r ->]%startsWith_spec. rewrite length_app. lia. Qed.

Lemma startsWith_line p x t y :
  t ∉ p -> startsWith p (x ++ t :: y) = startsWith p x.
Proof.
  intros Ht. destruct (startsWith p x) eqn:E.
  - by apply startsWith_app_l.
  - destruct (startsWith p (x ++ t :: y)) eqn:E'; [|done].
    apply startsWith_cut in E'; [congruence|done].
Qed.

(** A lazy span stops at a line terminator: what follows the terminator
    plays no part in the match. *)
Lemma lazy_dots_line close x t y :
  isLineTerminator t = true -> close <> [] -> t ∉ close ->
  lazy_dots close (x ++ t :: y) =
  match lazy_dots close x with
  | Some (cap, r) => Some (cap, r ++ t :: y)
  | None => None
  end.
Proof.
  intros Ht Hne Hc. induction x as [|d x IH].
  - assert (H0 : startsWith close [] = false) by by destruct close.
    assert (H1 : startsWith close (t :: y) = false).
    { by rewrite <- H0, <- (startsWith_line close [] t y Hc). }
    simpl app. cbn [lazy_dots]. by rewrite H0, H1, Ht.
  - change ((d :: x) ++ t :: y) with (d :: (x ++ t :: y)). cbn [lazy_dots].
    change (d :: (x ++ t :: y)) with ((d :: x) ++ t :: y).
    rewrite startsWith_line by done.
    destruct (startsWith close (d :: x)) eqn:E.
    + by rewrite drop_app_le by by apply startsWith_length.
    + destruct (isLineTerminator d); [done|].
      rewrite IH. by destruct (lazy_dots close x) as [[cap r]|].
Qed.

Lemma match_here_line open close x t y :
  isLineTerminator t = true -> close <> [] -> t ∉ close -> t ∉ open ->
  match_here open close (x ++ t :: y) =
  match match_here open close x with
  | Some (cap, r) => Some (cap, r ++ t :: y)
  | None => None
  end.
Proof.
  intros Ht Hne Hc Ho. unfold match_here. rewrite startsWith_line by done.
  destruct (startsWith open x) eqn:E; [|done].
  rewrite drop_app_le by by apply startsWith_length.
  by apply lazy_dots_line.
Qed.

(** The global replace works line by line. *)
Lemma replace_line open close before after n x t y :
  isLineTerminator t = true -> (0 < length open)%nat -> close <> [] ->
  t ∉ close -> t ∉ open -> (length x <= n)%nat ->
  replace open close before after (x ++ t :: y) =
  replace open close before after x ++ t :: replace open close before after y.
Proof.
  intros Ht Hlen Hne Hc Ho. revert x; induction n as [|n IH]; intros x Hn.
  - destruct x; [|simpl in Hn; lia]. simpl app.
    rewrite replace_cons by done.
    change (t :: y) with ([] ++ t :: y). rewrite match_here_line by done.
    unfold match_here. destruct open; [simpl in Hlen; lia|done].
  - destruct x as [|d x].
    + apply (IH []). simpl. lia.
    + change ((d :: x) ++ t :: y) with (d :: (x ++ t :: y)).
      rewrite !replace_cons by done.
      change (d :: (x ++ t :: y)) with ((d :: x) ++ t :: y).
      rewrite match_here_line by done.
      destruct (match_here open close (d :: x)) as [[cap r]|] eqn:E.
      * pose proof (match_here_shorter _ _ _ _ _ Hlen E) as Hr.
        rewrite IH by (simpl in *; lia). by rewrite <- !app_assoc.
      * rewrite IH by (simpl in *; lia). done.
Qed.

Lemma lineTerminator_not_star t : isLineTerminator t = true -> t ∉ js "**".
Proof.
  intros Ht Hin. change (js "**") with [42; 42] in Hin.
  apply elem_of_cons in Hin as [->|Hin]; [done|].
  apply elem_of_cons in Hin as [->|Hin]; [done|]. by apply elem_of_nil in Hin.
Qed.

Lemma inlineFormat_line x t y :
  isLineTerminator t = true ->
  inlineFormat (x ++ t :: y) = inlineFormat x ++ t :: inlineFormat y.
Proof.
  intros Ht. pose proof (lineTerminator_not_star t Ht) as H2.
  assert (H1 : t ∉ js "*").
  { intros Hin. apply H2. change (js "**") with (42 :: js "*"). by right. }
  unfold inlineFormat, strongPass, emPass.
  rewrite (replace_line (js "**") (js "**") _ _ (length x)); try done; [|simpl; lia].
  rewrite (replace_line (js "*") (js "*") _ _
             (length (replace (js "**") (js "**") STRONG_OPEN STRONG_CLOSE x)));
    try done. simpl; lia.
Qed.

End Lines.

(** Two concrete strings differ: decided by comparing them. *)
Ltac js_differ :=
  let H := fresh in
  intros H; apply streq_eq in H; vm_compute in H; discriminate H.

(** ** The inline formatter *)

(** C3, as stated, fails: a [**] with no closing [**] does not stay literal.
    The second substitution reads it as an emphasis with empty content. *)
Lemma unmatched_double_star_rewritten :
  inlineFormat (js "a ** b") = js "a <em></em> b"
  /\ inlineFormat (js "a ** b") <> js "a ** b".
Proof. split; [by vm_compute|js_differ]. Qed.

(** C3, amended: a text with at most one [*] is returned unchanged, and the
    lines of a text are formatted independently of each other, so a [*] that
    is alone on its line stays literal; [a * b] is unchanged.  A lone [**] in
    a text with no other [*] is left alone by the strong-emphasis pass and is
    rewritten by the emphasis pass into an empty emphasis element. *)
Theorem unmatched_star_literal :
  (forall s, (stars s <= 1)%nat -> inlineFormat s = s)
  /\ (forall x t y, isLineTerminator t = true ->
        inlineFormat (x ++ t :: y) = inlineFormat x ++ t :: inlineFormat y)
  /\ inlineFormat (js "a * b") = js "a * b"
  /\ (forall u v, stars u = 0%nat -> stars v = 0%nat ->
        strongPass (u ++ js "**" ++ v) = u ++ js "**" ++ v
        /\ inlineFormat (u ++ js "**" ++ v) = u ++ EM_OPEN ++ EM_CLOSE ++ v).
Proof.
  assert (S2 : stars (js "**") = 2%nat) by done.
  assert (S1 : stars (js "*") = 1%nat) by done.
  split_and!.
  - apply inlineFormat_few_stars.
  - apply inlineFormat_line.
  - by vm_compute.
  - intros u v Hu Hv.
    assert (H1 : strongPass (u ++ js "**" ++ v) = u ++ js "**" ++ v).
    { apply replace_few_stars; [simpl; lia|].
      rewrite !stars_app, Hu, Hv. lia. }
    split; [done|]. unfold inlineFormat. rewrite H1. unfold emPass.
    change (js "*") with [42]. rewrite replace_app_skip by by apply stars_0_notin.
    f_equal. change (js "**" ++ v) with (42 :: 42 :: v).
    rewrite replace_cons by (simpl; lia).
    assert (Hm : match_here [42] [42] (42 :: 42 :: v) = Some ([], v)) by done.
    rewrite Hm. simpl app at 1.
    rewrite replace_few_stars; [done|simpl; lia|].
    change [42] with (js "*"). lia.
Qed.

Lemma unmatched_star_literal_witness :
  inlineFormat (js "2 * 3 = 6") = js "2 * 3 = 6"
  /\ inlineFormat (js "*em*" ++ nl ++ js "2 * 3")
     = inlineFormat (js "*em*") ++ nl ++ inlineFormat (js "2 * 3").
Proof.
  split.
  - apply (proj1 unmatched_star_literal). vm_compute. lia.
  - apply (proj1 (proj2 unmatched_star_literal) (js "*em*") 10 (js "2 * 3")).
    reflexivity.
Defined.

(** ** The block renderer *)

Lemma renderBlock_classify block : renderBlock block = blockHTML (classify block).
Proof.
  unfold renderBlock, classify, substring.
  repeat case_match; try done.
  simpl. unfold join. by rewrite map_map.
Qed.

Lemma renderBody_blocks text :
  join (map renderBlock (split (nl ++ nl) text)) = toHTML (blocks text).
Proof.
  unfold toHTML, blocks, join. rewrite map_map. f_equal.
  apply map_ext. intros b. apply renderBlock_classify.
Qed.

Lemma split_blank_leading text :
  split (nl ++ nl) (nl ++ nl ++ text) = [] :: split (nl ++ nl) text.
Proof. change (nl ++ nl ++ text) with (10 :: 10 :: text). by rewrite split_cons by (simpl; lia). Qed.

Lemma prepend_snoc p l x : l <> [] -> prepend p (l ++ [x]) = prepend p l ++ [x].
Proof. intros Hl. destruct l; [congruence|done]. Qed.

Lemma startsWith_blank c s :
  startsWith (nl ++ nl) (c :: s) = (10 =? c) && startsWith nl s.
Proof. done. Qed.

Lemma startsWith_nl c s : startsWith nl (c :: s) = (10 =? c).
Proof. simpl. apply andb_true_r. Qed.

Lemma split_blank_cons_other c s :
  c <> 10 -> split (nl ++ nl) (c :: s) = prepend [c] (split (nl ++ nl) s).
Proof.
  intros Hc. rewrite split_cons by (simpl; lia). rewrite startsWith_blank.
  destruct (10 =? c) eqn:E; [apply N.eqb_eq in E; congruence|done].
Qed.

Lemma split_blank_trailing_len n text :
  (length text <= n)%nat -> last text <> Some 10 ->
  split (nl ++ nl) (text ++ nl ++ nl) = split (nl ++ nl) text ++ [[]].
Proof.
  revert text; induction n as [|n IH]; intros text Hn Hl.
  - destruct text; [done|simpl in Hn; lia].
  - destruct text as [|c text]; [done|].
    assert (Hlen : (length text <= n)%nat) by (simpl in Hn; lia).
    destruct (decide (c = 10)) as [->|Hc].
    + destruct text as [|d text]; [done|].
      rewrite last_cons_cons in Hl.
      destruct (decide (d = 10)) as [->|Hd].
      * change ((10 :: 10 :: text) ++ nl ++ nl) with (nl ++ nl ++ (text ++ nl ++ nl)).
        change (10 :: 10 :: text) with (nl ++ nl ++ text).
        rewrite !split_blank_leading. simpl app. f_equal.
        apply IH; [simpl in Hlen; lia|].
        destruct text; [done|by rewrite last_cons_cons in Hl].
      * change ((10 :: d :: text) ++ nl ++ nl) with (10 :: ((d :: text) ++ nl ++ nl)).
        rewrite !(split_cons _ 10) by (simpl; lia).
        rewrite !startsWith_blank.
        change ((d :: text) ++ nl ++ nl) with (d :: (text ++ nl ++ nl)).
        rewrite !startsWith_nl.
        destruct (10 =? d) eqn:E; [apply N.eqb_eq in E; congruence|].
        rewrite andb_false_r.
        change (d :: (text ++ nl ++ nl)) with ((d :: text) ++ nl ++ nl).
        rewrite IH by done. apply prepend_snoc, split_nonempty.
    + change ((c :: text) ++ nl ++ nl) with (c :: (text ++ nl ++ nl)).
      rewrite !split_blank_cons_other by done.
      rewrite IH; [apply prepend_snoc, split_nonempty|done|].
      destruct text; [done|by rewrite last_cons_cons in Hl].
Qed.

Lemma split_blank_trailing text :
  last text <> Some 10 ->
  split (nl ++ nl) (text ++ nl ++ nl) = split (nl ++ nl) text ++ [[]].
Proof. by apply (split_blank_trailing_len (length text)). Qed.

(** What the two substitutions share: the delimiters begin with a star and
    hold no line terminator, the inserted markup begins with [<] and holds no
    line feed. *)
Section Pass.

Variables (open' close' before' after : jsstring).
Let open := 42 :: open'.
Let close := 42 :: close'.
Let before := 60 :: before'.
Hypothesis open_line : forall t, isLineTerminator t = true -> t ∉ open.
Hypothesis close_line : forall t, isLineTerminator t = true -> t ∉ close.
Hypothesis before_line : 10 ∉ before.
Hypothesis after_line : 10 ∉ after.

Let R := replace open close before after.

Lemma pass_line x t y :
  isLineTerminator t = true -> R (x ++ t :: y) = R x ++ t :: R y.
Proof.
  intros Ht. apply (replace_line open close before after (length x));
    try done; auto; simpl; lia.
Qed.

Lemma pass_keeps_lines n s : (length s <= n)%nat -> 10 ∉ s -> 10 ∉ R s.
Proof.
  revert s; induction n as [|n IH]; intros s Hn Hs.
  - destruct s; [done|simpl in Hn; lia].
  - destruct s as [|c s]; [done|]. unfold R. rewrite replace_cons by (simpl; lia).
    destruct (match_here open close (c :: s)) as [[cap r]|] eqn:E.
    + pose proof (match_here_shorter open close _ _ _ ltac:(simpl; lia) E) as Hr.
      apply match_here_Some in E. rewrite E in Hs.
      rewrite !not_elem_of_app in Hs. destruct Hs as (_ & Hcap & _ & Hr').
      rewrite !not_elem_of_app. split_and!; try done.
      apply IH; [simpl in *; lia|done].
    + apply not_elem_of_cons in Hs as [Hc Hs]. apply not_elem_of_cons.
      split; [done|]. apply IH; [simpl in *; lia|done].
Qed.

(** A marker, which holds neither [*] nor [<], is at the head of the result
    exactly when it is at the head of the text. *)
Lemma pass_startsWith p s :
  42 ∉ p -> 60 ∉ p -> startsWith p (R s) = startsWith p s.
Proof.
  revert s; induction p as [|a p IH]; intros s H42 H60; [done|].
  apply not_elem_of_cons in H42 as [Ha42 H42].
  apply not_elem_of_cons in H60 as [Ha60 H60].
  destruct s as [|c s]; [done|]. unfold R. rewrite replace_cons by (simpl; lia).
  destruct (match_here open close (c :: s)) as [[cap r]|] eqn:E.
  - apply match_here_Some in E. injection E as -> _.
    change (before ++ cap ++ after ++ replace open close before after r)
      with (60 :: (before' ++ cap ++ after ++ replace open close before after r)).
    cbn [startsWith].
    destruct (a =? 60) eqn:E1; [apply N.eqb_eq in E1; congruence|].
    destruct (a =? 42) eqn:E2; [apply N.eqb_eq in E2; congruence|done].
  - cbn [startsWith]. f_equal. by apply IH.
Qed.

Lemma pass_marker p s : 42 ∉ p -> R (p ++ s) = p ++ R s.
Proof. apply replace_app_skip. Qed.

Lemma split_nl_first x y : 10 ∉ x -> split nl (x ++ 10 :: y) = x :: split nl y.
Proof.
  intros Hx. unfold nl. rewrite split_app_skip by done.
  rewrite split_cons by (simpl; lia). simpl. by rewrite app_nil_r.
Qed.

Lemma split_blank_first x y :
  10 ∉ x -> split (nl ++ nl) (x ++ 10 :: 10 :: y) = x :: split (nl ++ nl) y.
Proof.
  intros Hx. change (nl ++ nl) with [10; 10]. rewrite split_app_skip by done.
  rewrite split_cons by (simpl; lia). simpl. by rewrite app_nil_r.
Qed.

Lemma split_blank_single x y :
  10 ∉ x -> startsWith nl y = false ->
  split (nl ++ nl) (x ++ 10 :: y) = prepend (x ++ [10]) (split (nl ++ nl) y).
Proof.
  intros Hx Hy. change (nl ++ nl) with (10 :: nl) at 1.
  rewrite split_app_skip by done. change (10 :: nl) with (nl ++ nl).
  rewrite split_cons by (simpl; lia). rewrite startsWith_blank, Hy, andb_false_r.
  by rewrite prepend_prepend.
Qed.

Lemma pass_split_nl n s :
  (length s <= n)%nat -> split nl (R s) = map R (split nl s).
Proof.
  revert s; induction n as [|n IH]; intros s Hn.
  - destruct s; [done|simpl in Hn; lia].
  - destruct (decide (10 ∈ s)) as [Hin|Hout].
    + apply list_elem_of_split_l in Hin as (x & y & -> & Hx).
      rewrite pass_line by done.
      rewrite !split_nl_first by (done || by apply (pass_keeps_lines (length x))).
      simpl. f_equal. apply IH. rewrite length_app in Hn. simpl in Hn. lia.
    + rewrite (split_absent nl 10 [] s) by done.
      rewrite (split_absent nl 10 [] (R s));
        [done|done|by apply (pass_keeps_lines (length s))].
Qed.

Lemma pass_split_blank n s :
  (length s <= n)%nat -> split (nl ++ nl) (R s) = map R (split (nl ++ nl) s).
Proof.
  revert s; induction n as [|n IH]; intros s Hn.
  - destruct s; [done|simpl in Hn; lia].
  - destruct (decide (10 ∈ s)) as [Hin|Hout].
    + apply list_elem_of_split_l in Hin as (x & y & -> & Hx).
      rewrite length_app in Hn. simpl in Hn.
      assert (Hx' : 10 ∉ R x) by by apply (pass_keeps_lines (length x)).
      rewrite pass_line by done.
      destruct (startsWith nl y) eqn:E.
      * apply startsWith_spec in E as [y2 ->]. change (nl ++ y2) with ([] ++ 10 :: y2).
        rewrite pass_line by done. change (R [] ++ 10 :: R y2) with (10 :: R y2).
        simpl app. rewrite !split_blank_first by done.
        simpl. f_equal. apply IH. simpl in Hn. lia.
      * rewrite !split_blank_single; [|done|done|done|].
        2:{ rewrite pass_startsWith; [done| |].
            - intros H. apply list_elem_of_singleton in H. done.
            - intros H. apply list_elem_of_singleton in H. done. }
        rewrite IH by lia.
        destruct (split (nl ++ nl) y) as [|p ps] eqn:Es; [done|].
        cbn [map prepend]. f_equal. rewrite <- !app_assoc.
        change ([10] ++ p) with (10 :: p). change ([10] ++ R p) with (10 :: R p).
        by rewrite pass_line.
    + rewrite (split_absent (nl ++ nl) 10 nl s) by done.
      rewrite (split_absent (nl ++ nl) 10 nl (R s));
        [done|done|by apply (pass_keeps_lines (length s))].
Qed.

End Pass.

(** The two passes of the script are instances. *)
Section FormatFacts.

Implicit Types (s p : jsstring).

Lemma lineTerminator_not_star1 t : isLineTerminator t = true -> t ∉ js "*".
Proof.
  intros Ht Hin. apply (lineTerminator_not_star t Ht).
  change (js "**") with (42 :: js "*"). by right.
Qed.

Lemma strongPass_split sep s :
  sep = nl \/ sep = nl ++ nl -> split sep (strongPass s) = map strongPass (split sep s).
Proof.
  assert (Hb : 10 ∉ STRONG_OPEN) by (apply lacks_check; by vm_compute).
  assert (Ha : 10 ∉ STRONG_CLOSE) by (apply lacks_check; by vm_compute).
  intros [-> | ->].
  - apply (pass_split_nl [42] [42] (tail STRONG_OPEN) STRONG_CLOSE
             lineTerminator_not_star lineTerminator_not_star Hb Ha (length s)). lia.
  - apply (pass_split_blank [42] [42] (tail STRONG_OPEN) STRONG_CLOSE
             lineTerminator_not_star lineTerminator_not_star Hb Ha (length s)). lia.
Qed.

Lemma emPass_split sep s :
  sep = nl \/ sep = nl ++ nl -> split sep (emPass s) = map emPass (split sep s).
Proof.
  assert (Hb : 10 ∉ EM_OPEN) by (apply lacks_check; by vm_compute).
  assert (Ha : 10 ∉ EM_CLOSE) by (apply lacks_check; by vm_compute).
  intros [-> | ->].
  - apply (pass_split_nl [] [] (tail EM_OPEN) EM_CLOSE
             lineTerminator_not_star1 lineTerminator_not_star1 Hb Ha (length s)). lia.
  - apply (pass_split_blank [] [] (tail EM_OPEN) EM_CLOSE
             lineTerminator_not_star1 lineTerminator_not_star1 Hb Ha (length s)). lia.
Qed.

(** Cutting the formatted text gives the formatted pieces of the text. *)
Lemma inlineFormat_split sep s :
  sep = nl \/ sep = nl ++ nl ->
  split sep (inlineFormat s) = map inlineFormat (split sep s).
Proof.
  intros Hsep. unfold inlineFormat.
  rewrite emPass_split, strongPass_split by done. by rewrite map_map.
Qed.

Lemma inlineFormat_startsWith p s :
  42 ∉ p -> 60 ∉ p -> startsWith p (inlineFormat s) = startsWith p s.
Proof.
  intros H42 H60. unfold inlineFormat.
  rewrite (pass_startsWith [] [] (tail EM_OPEN) EM_CLOSE) by done.
  by rewrite (pass_startsWith [42] [42] (tail STRONG_OPEN) STRONG_CLOSE) by done.
Qed.

Lemma inlineFormat_marker p s : 42 ∉ p -> inlineFormat (p ++ s) = p ++ inlineFormat s.
Proof.
  intros H42. unfold inlineFormat, strongPass, emPass.
  change (js "**") with (42 :: js "*"). change (js "*") with [42].
  by rewrite !replace_app_skip by done.
Qed.

Lemma marker_plain (p : jsstring) :
  p ∈ [js "### "; js "## "; js "# "; js "- "] -> (42 ∉ p) /\ (60 ∉ p).
Proof.
  intros Hp. repeat (apply elem_of_cons in Hp as [->|Hp]);
    [| | | |by apply elem_of_nil in Hp];
    split; apply lacks_check; by vm_compute.
Qed.

Lemma inlineFormat_drop_marker p s :
  p ∈ [js "### "; js "## "; js "# "; js "- "] -> startsWith p s = true ->
  drop (length p) (inlineFormat s) = inlineFormat (drop (length p) s).
Proof.
  intros Hp [r ->]%startsWith_spec. destruct (marker_plain p Hp) as [H42 _].
  by rewrite inlineFormat_marker, !drop_app_length.
Qed.

(** Formatting first and classifying afterwards gives the block that
    classifying the raw text first and formatting its payload gives. *)
Lemma classify_inlineFormat block :
  classify (inlineFormat block) = classifyThenFormat block.
Proof.
  unfold classify, classifyThenFormat.
  assert (M : forall p, p ∈ [js "### "; js "## "; js "# "; js "- "] ->
                        startsWith p (inlineFormat block) = startsWith p block).
  { intros p Hp. destruct (marker_plain p Hp). by apply inlineFormat_startsWith. }
  rewrite !M by repeat constructor.
  destruct (startsWith (js "### ") block) eqn:E3.
  { f_equal. apply (inlineFormat_drop_marker (js "### ")); [repeat constructor|done]. }
  destruct (startsWith (js "## ") block) eqn:E2.
  { f_equal. apply (inlineFormat_drop_marker (js "## ")); [repeat constructor|done]. }
  destruct (startsWith (js "# ") block) eqn:E1.
  { f_equal. apply (inlineFormat_drop_marker (js "# ")); [repeat constructor|done]. }
  destruct (startsWith (js "- ") block) eqn:Eb; [|done].
  f_equal. rewrite inlineFormat_split by by left. by rewrite map_map.
Qed.

End FormatFacts.

(** C9: the renderer cuts the text at blank lines and turns each piece
    into the markup of its classified block: [### ], [## ], [# ] give
    headings 3, 2, 1 with 4, 3, 2 code units stripped, a leading [- ] gives a
    bullet list, anything else a paragraph; an empty piece at the head or
    at the tail is an empty paragraph; the two sample reports give the
    stated documents.  The script formats the whole text before it cuts it;
    the blocks are those of the raw text, classified by their raw prefix,
    with formatted payloads. *)
Theorem renderReport_blocks :
  (forall report, renderBody report = toHTML (blocks (inlineFormat report)))
  /\ (forall report,
        blocks (inlineFormat report) = map classifyThenFormat (split (nl ++ nl) report))
  /\ (forall t, classify (js "### " ++ t) = Heading 3 t)
  /\ (forall t, classify (js "## " ++ t) = Heading 2 t)
  /\ (forall t, classify (js "# " ++ t) = Heading 1 t)
  /\ (forall t, classify (js "- " ++ t) =
                 BulletList (map (drop 2) (split nl (js "- " ++ t))))
  /\ (forall b, startsWith (js "### ") b = false -> startsWith (js "## ") b = false ->
                 startsWith (js "# ") b = false -> startsWith (js "- ") b = false ->
                 classify b = Paragraph b)
  /\ (forall text, blocks (nl ++ nl ++ text) = Paragraph [] :: blocks text)
  /\ (forall text, last text <> Some 10 ->
                    blocks (text ++ nl ++ nl) = blocks text ++ [Paragraph []])
  /\ blocks (js "# Title" ++ nl ++ nl ++ js "Body text")
     = [Heading 1 (js "Title"); Paragraph (js "Body text")]
  /\ renderBody (js "# Title" ++ nl ++ nl ++ js "Body text")
     = toHTML [Heading 1 (js "Title"); Paragraph (js "Body text")]
  /\ blocks (js "- a" ++ nl ++ js "- b") = [BulletList [js "a"; js "b"]]
  /\ renderBody (js "- a" ++ nl ++ js "- b") = toHTML [BulletList [js "a"; js "b"]].
Proof.
  split_and!.
  - intros report. apply renderBody_blocks.
  - intros report. unfold blocks.
    rewrite inlineFormat_split by by right. rewrite map_map.
    apply map_ext. intros block. apply classify_inlineFormat.
  - done.
  - done.
  - done.
  - done.
  - intros b H3 H2 H1 Hb. unfold classify. by rewrite H3, H2, H1, Hb.
  - intros text. unfold blocks. by rewrite split_blank_leading.
  - intros text Hl. unfold blocks. rewrite split_blank_trailing by done.
    by rewrite map_app.
  - by vm_compute.
  - by vm_compute.
  - by vm_compute.
  - by vm_compute.
Qed.

Lemma renderReport_blocks_witness :
  classify (js "Body text") = Paragraph (js "Body text")
  /\ blocks (js "Done." ++ nl ++ nl) = blocks (js "Done.") ++ [Paragraph []].
Proof.
  split.
  - by apply (proj1 (proj2 (proj2 (proj2 (proj2 (proj2 (proj2 renderReport_blocks))))))).
  - by apply (proj1 (proj2 (proj2 (proj2 (proj2 (proj2 (proj2 (proj2 (proj2 renderReport_blocks))))))))).
Defined.

(** ** Bullet blocks *)

(** C2, as stated, fails: a line of a bullet block that does not start with
    the marker is not kept unaltered, it loses its first two code units like
    every other line. *)
Lemma bullet_line_without_marker_cut :
  renderBody (js "- a" ++ nl ++ js "bcd")
  = toHTML [BulletList [js "a"; js "d"]]
  /\ renderBlock (js "- a" ++ nl ++ js "bcd")
     <> blockHTML (BulletList (map markedItem (split nl (js "- a" ++ nl ++ js "bcd")))).
Proof. split; [by vm_compute|js_differ]. Qed.

(** C2, amended: in a block that starts with [- ] each line is emitted as
    one list item, in order, and every line has its first two code units
    stripped whether or not they are the marker; a line that starts with
    [- ] thus loses exactly the marker. *)
Theorem bullet_block_items block :
  startsWith (js "- ") block = true ->
  renderBlock block
  = UL_OPEN
    ++ concat (map (fun line => LI_OPEN ++ drop 2 line ++ js "</li>") (split nl block))
    ++ js "</ul>"
  /\ (forall line, startsWith (js "- ") line = true -> js "- " ++ drop 2 line = line).
Proof.
  intros Hb. split.
  - apply startsWith_spec in Hb as [t ->]. done.
  - intros line Hl. by apply (startsWith_drop (js "- ")).
Qed.

Lemma bullet_block_items_witness :
  renderBlock (js "- a" ++ nl ++ js "- b")
  = UL_OPEN
    ++ concat (map (fun line => LI_OPEN ++ drop 2 line ++ js "</li>")
                   (split nl (js "- a" ++ nl ++ js "- b")))
    ++ js "</ul>".
Proof. apply (bullet_block_items (js "- a" ++ nl ++ js "- b")). reflexivity. Defined.

(** ** Subtopic rows *)

Section Rows.

Implicit Types (st : UI) (rows : list Row) (index : Z) (status : jsstring).


Lemma children_at_Some rows index :
  (0 <= index < Z.of_nat (length rows))%Z ->
  exists listItem, children_at rows index = Some listItem
                   /\ rows !! Z.to_nat index = Some listItem.
Proof.
  intros H. unfold children_at.
  destruct (0 <=? index)%Z eqn:E; [|apply Z.leb_gt in E; lia].
  destruct (lookup_lt_is_Some_2 rows (Z.to_nat index)) as [r Hr]; [lia|]. eauto.
Qed.

Lemma statusInfo_get_known (s : Status) :
  exists i, statusInfo_get (statusName s) = Some i
            /\ assoc (statusName s) statusInfo = Some i.
Proof. destruct s; eexists; split; reflexivity. Qed.

Lemma patchRow_displays (s : Status) i listItem :
  statusInfo_get (statusName s) = Some i -> displays (patchRow i listItem) s.
Proof. intros H. unfold displays. rewrite H. done. Qed.

End Rows.



(** C5: the guard on the looked-up entry is meant to drop a status name that
    is not one of the four, but the lookup also finds the names every object
    inherits.  With the status [constructor] the addressed row is rewritten,
    its classes and its text reading [undefined]. *)
Theorem inherited_status_name_rewrites_row (topic : jsstring) (st : UI) :
  subtopics_ul
    (on_sub_topic_update 0 (js "constructor") (renderSubTopicList [topic] st))
  = Some [ {| li_className := LI_BASE ++ js "undefined";
              li_label := topic;
              div_className := DIV_BASE ++ js "undefined";
              div_innerHTML :=
                js "undefined" ++ html "<span class='capitalize'>"
                ++ js "undefined" ++ js "</span>" |} ]
  /\ on_sub_topic_update 0 (js "constructor") (renderSubTopicList [topic] st)
     <> renderSubTopicList [topic] st.
Proof.
  split; [reflexivity|].
  intros H. apply (f_equal subtopics_ul) in H.
  apply (f_equal (fun o => match o with
                           | Some [r] => streq (div_className r) (div_className (templateRow topic))
                           | _ => true
                           end)) in H.
  vm_compute in H. discriminate H.
Qed.

(** A status name that is neither one of the four nor inherited is dropped. *)
Lemma unknown_status_dropped (st : UI) (index : Z) (status : jsstring) :
  statusInfo_get status = None -> on_sub_topic_update index status st = st.
Proof.
  intros H. unfold on_sub_topic_update, updateSubTopicStatus. rewrite H.
  by repeat case_match.
Qed.

(** C4, as stated, fails: the handler writes whatever status it is given.
    A row showing Complete shows Pending again after one more update. *)
Lemma status_moves_backward :
  let st1 := on_sub_topic_update 0 (js "complete")
               (renderSubTopicList [js "Tides"] emptyPage) in
  let st2 := on_sub_topic_update 0 (js "pending") st1 in
  (exists r1 r2,
      subtopics_ul st1 = Some [r1] /\ shows r1 Complete
      /\ subtopics_ul st2 = Some [r2] /\ shows r2 Pending)
  /\ ~ forward Complete Pending.
Proof.
  split.
  - do 2 eexists. split; [reflexivity|]. split; [by split_and!|].
    split; [reflexivity|by split_and!].
  - intros [H|H]; [discriminate|simpl in H; lia].
Qed.

Lemma patchRow_shows (s : Status) i listItem :
  statusInfo_get (statusName s) = Some i -> shows (patchRow i listItem) s.
Proof. intros H. unfold shows. rewrite H. done. Qed.

(** C4, amended: on a page that holds no element brought by a payload, for
    an index inside the list and any of the four status names the addressed
    row shows that status after the update, in its classes, its icon and its
    word, whatever it showed before; its label, the other rows and the number
    of rows are unchanged.  The handler imposes no order on the statuses. *)
Theorem updateSubTopicStatus_last_write (st : UI) (rows : list Row) (index : Z) (s : Status) :
  injected st = false ->
  subtopics_ul st = Some rows ->
  (0 <= index < Z.of_nat (length rows))%Z ->
  exists rows' old new,
    subtopics_ul (on_sub_topic_update index (statusName s) st) = Some rows'
    /\ length rows' = length rows
    /\ rows !! Z.to_nat index = Some old
    /\ rows' !! Z.to_nat index = Some new
    /\ shows new s
    /\ li_label new = li_label old
    /\ (forall j, j <> Z.to_nat index -> rows' !! j = rows !! j).
Proof.
  intros _ Hul Hi.
  destruct (children_at_Some rows index Hi) as (old & Hc & Hold).
  destruct (statusInfo_get_known s) as (i & Hget & _).
  unfold on_sub_topic_update, updateSubTopicStatus. rewrite Hul, Hc, Hget.
  exists (<[Z.to_nat index := patchRow i old]> rows), old, (patchRow i old).
  split_and!; try done.
  - apply length_insert.
  - apply list_lookup_insert_eq. lia.
  - by apply patchRow_shows.
  - intros j Hj. by apply list_lookup_insert_ne.
Qed.

Lemma updateSubTopicStatus_last_write_witness :
  exists rows' old new,
    subtopics_ul (on_sub_topic_update 1 (statusName InProgress)
                    (renderSubTopicList [js "Tides"; js "Gyres"] emptyPage)) = Some rows'
    /\ length rows' = length (map templateRow [js "Tides"; js "Gyres"])
    /\ map templateRow [js "Tides"; js "Gyres"] !! Z.to_nat 1 = Some old
    /\ rows' !! Z.to_nat 1 = Some new
    /\ shows new InProgress
    /\ li_label new = li_label old
    /\ (forall j, j <> Z.to_nat 1 -> rows' !! j = map templateRow [js "Tides"; js "Gyres"] !! j).
Proof.
  apply (updateSubTopicStatus_last_write
           (renderSubTopicList [js "Tides"; js "Gyres"] emptyPage)
           (map templateRow [js "Tides"; js "Gyres"]) 1 InProgress).
  - reflexivity.
  - reflexivity.
  - simpl. lia.
Defined.

(** ** Errors *)

(** C6, as stated, fails: the error handler does not leave the status text
    in place, it replaces it by a fixed line. *)
Lemma error_replaces_status_text :
  let before := on_status_update (js "Researching tides...") emptyPage in
  let after := on_research_error (js "timeout") before in
  sl_textContent (statusMessage before) = js "Researching tides..."
  /\ sl_textContent (statusMessage after) = js "An error occurred."
  /\ sl_textContent (statusMessage after) <> sl_textContent (statusMessage before).
Proof. split_and!; [done|done|js_differ]. Qed.

(** C6, amended: the error handler shows the message verbatim as the error
    text, replaces the status text by the line [An error occurred.], clears
    the busy state of the controls, and leaves the content of the topic field
    and the current topic as they were; on a page that holds no element
    brought by a payload it leaves the subtopic list and the report panel
    exactly as they were.  (The script keeps no phase variable; the error
    shows in these elements.  On a page with injected elements the colour
    request of the handler can re-class a span inside a container.) *)
Theorem on_research_error_effect (error : jsstring) (st : UI) :
  let st' := on_research_error error st in
  errorMessage st' = error
  /\ sl_textContent (statusMessage st') = js "An error occurred."
  /\ currentTopic st' = currentTopic st
  /\ in_value (topicInput st') = in_value (topicInput st)
  /\ in_disabled (topicInput st') = false
  /\ btn_cursor_wait (startResearchBtn st') = false
  /\ injected st' = injected st
  /\ (injected st = false ->
      subtopics_ul st' = subtopics_ul st /\ reportContainer st' = reportContainer st).
Proof.
  unfold on_research_error, setStatusColor, set_statusText. simpl.
  split_and!; done.
Qed.

Lemma on_research_error_effect_witness :
  let st := on_sub_topic_update 0 (js "in-progress")
              (renderSubTopicList [js "Tides"] emptyPage) in
  subtopics_ul (on_research_error (js "timeout") st) = subtopics_ul st
  /\ reportContainer (on_research_error (js "timeout") st) = reportContainer st.
Proof.
  intros st.
  apply (proj2 (proj2 (proj2 (proj2 (proj2 (proj2 (proj2
           (on_research_error_effect (js "timeout") st)))))))).
  reflexivity.
Defined.

(** ** Submission *)

Lemma not_truthy_nil (s : jsstring) : negb (truthy s) = true <-> s = [].
Proof. destruct s; simpl; split; congruence. Qed.

(** C7: a call of the submit action sends exactly one [start_research]
    message, carrying the content of the topic field, when that content is
    not empty after trimming, and sends nothing otherwise; in the second
    case the page is unchanged except for the error text, which then holds
    the validation message. *)
Theorem startResearch_outbound (st : UI) :
  let topic := in_value (topicInput st) in
  (snd (startResearch st) = [start_research topic] <-> trim topic <> [])
  /\ (trim topic = [] ->
      startResearch st = (set_errorMessage (js "Please enter a research topic.") st, []))
  /\ (snd (startResearch st) = [] <-> trim topic = [])
  /\ (length (snd (startResearch st)) <= 1)%nat.
Proof.
  unfold startResearch. cbv zeta.
  destruct (negb (truthy (trim (in_value (topicInput st))))) eqn:E.
  - apply not_truthy_nil in E. simpl.
    split_and!; try done; try lia; try (split; [discriminate|congruence]).
  - assert (Hne : trim (in_value (topicInput st)) <> []).
    { intros H. apply not_truthy_nil in H. congruence. }
    simpl.
    split_and!; try done; try lia; try (split; [discriminate|congruence]).
Qed.

Lemma startResearch_outbound_witness :
  startResearch (typed (js "   ") emptyPage)
  = (set_errorMessage (js "Please enter a research topic.") (typed (js "   ") emptyPage), [])
  /\ snd (startResearch (typed (js "Ocean currents") emptyPage))
     = [start_research (js "Ocean currents")].
Proof.
  split.
  - apply (proj1 (proj2 (startResearch_outbound (typed (js "   ") emptyPage)))).
    reflexivity.
  - apply (proj1 (startResearch_outbound (typed (js "Ocean currents") emptyPage))).
    vm_compute. discriminate.
Defined.

(** ** Busy state *)

Section Busy.

Lemma updateSubTopicStatus_topicInput index status st :
  topicInput (updateSubTopicStatus index status st) = topicInput st.
Proof. unfold updateSubTopicStatus. by repeat case_match. Qed.

Lemma setStatusColor_topicInput cls st :
  topicInput (setStatusColor cls st) = topicInput st.
Proof. unfold setStatusColor. by case_match. Qed.

Lemma handle_busy_has_topic ev st :
  deliverable ev st -> busy_has_topic st -> busy_has_topic (fst (handle ev st)).
Proof.
  unfold busy_has_topic.
  destruct ev; simpl; intros Hd Hi; try done.
  - by rewrite setStatusColor_topicInput.
  - unfold on_sub_topic_update. by rewrite updateSubTopicStatus_topicInput.
  - unfold startResearch.
    destruct (negb (truthy (trim (in_value (topicInput st))))) eqn:E; simpl; [done|].
    intros _ H. apply not_truthy_nil in H. congruence.
  - unfold startResearch.
    destruct (negb (truthy (trim (in_value (topicInput st))))) eqn:E; simpl; [done|].
    intros _ H. apply not_truthy_nil in H. congruence.
Qed.

Lemma reachable_busy_has_topic st : reachable st -> busy_has_topic st.
Proof.
  induction 1 as [doc|st ev Hr IH Hd].
  - intros H. discriminate H.
  - by apply handle_busy_has_topic.
Qed.

End Busy.

(** C10: after [final_report] and after [research_error] the topic field is
    enabled again and the button is out of its waiting state, with its
    submit label; the button is then disabled only when the topic field is
    blank.  When the event ends a running session (the field was disabled),
    the field still holds the submitted topic, so the button is enabled and
    a click sends a new request at once. *)
Theorem terminal_event_reenables (st : UI) (ev : Event) :
  reachable st ->
  ((exists report, ev = final_report report) \/ (exists error, ev = research_error error)) ->
  let st' := fst (handle ev st) in
  in_disabled (topicInput st') = false
  /\ btn_cursor_wait (startResearchBtn st') = false
  /\ btn_innerHTML (startResearchBtn st') = icon_airplane ++ js "<span>Start Research</span>"
  /\ btn_disabled (startResearchBtn st') = negb (truthy (trim (in_value (topicInput st'))))
  /\ in_value (topicInput st') = in_value (topicInput st)
  /\ (in_disabled (topicInput st) = true ->
      btn_disabled (startResearchBtn st') = false
      /\ snd (handle click st') = [start_research (in_value (topicInput st))]).
Proof.
  intros Hr Hev st'.
  assert (Hv : in_value (topicInput st') = in_value (topicInput st)).
  { subst st'. destruct Hev as [[report ->]|[error ->]]; simpl.
    - by rewrite setStatusColor_topicInput.
    - done. }
  assert (Hb : btn_disabled (startResearchBtn st')
               = negb (truthy (trim (in_value (topicInput st'))))).
  { subst st'. destruct Hev as [[report ->]|[error ->]]; reflexivity. }
  split_and!; try done.
  - subst st'. by destruct Hev as [[report ->]|[error ->]].
  - subst st'. by destruct Hev as [[report ->]|[error ->]].
  - subst st'. by destruct Hev as [[report ->]|[error ->]].
  - intros Hbusy. pose proof (reachable_busy_has_topic st Hr Hbusy) as Ht.
    assert (Hn : negb (truthy (trim (in_value (topicInput st)))) = false).
    { destruct (negb (truthy (trim (in_value (topicInput st))))) eqn:E; [|done].
      apply not_truthy_nil in E. congruence. }
    split.
    + by rewrite Hb, Hv.
    + simpl. unfold startResearch. rewrite Hv, Hn. done.
Qed.

Lemma terminal_event_reenables_witness :
  let busy := fst (handle click (fst (handle (input (js "Ocean currents")) (loaded emptyPage)))) in
  let st' := fst (handle (final_report (js "## Summary" ++ nl ++ nl ++ js "Done.")) busy) in
  in_disabled (topicInput busy) = true
  /\ btn_disabled (startResearchBtn st') = false
  /\ snd (handle click st') = [start_research (js "Ocean currents")].
Proof.
  intros busy st'.
  assert (Hr : reachable busy).
  { apply (reach_step _ click); [|exact I].
    apply (reach_step _ (input (js "Ocean currents"))); [|reflexivity].
    apply reach_loaded. }
  split; [reflexivity|].
  apply (terminal_event_reenables busy
           (final_report (js "## Summary" ++ nl ++ nl ++ js "Done.")) Hr).
  - left. eexists. reflexivity.
  - reflexivity.
Defined.

(** ** Markup written by the renderer *)

Section OwnMarkup.

Implicit Types (s a b x r u tag : jsstring) (c : N).

Lemma ownMarkup_cons c s :
  ownMarkup (c :: s) =
  (if c =? 60 then existsb (fun tag => startsWith tag (c :: s)) rendererTags else true)
  && ownMarkup s.
Proof. done. Qed.

Lemma ownMarkup_app a b :
  ownMarkup a = true -> ownMarkup b = true -> ownMarkup (a ++ b) = true.
Proof.
  intros Ha Hb. induction a as [|c a IH]; [done|].
  change ((c :: a) ++ b) with (c :: (a ++ b)).
  rewrite ownMarkup_cons in Ha |- *.
  apply andb_true_iff in Ha as [Hc Ha]. apply andb_true_iff. split; [|by apply IH].
  destruct (c =? 60); [|done].
  apply existsb_exists in Hc as (tag & Hin & Htag). apply existsb_exists.
  exists tag. split; [done|]. by apply (startsWith_app_l tag (c :: a) b).
Qed.

Lemma ownMarkup_concat (l : list jsstring) :
  Forall (fun s => ownMarkup s = true) l -> ownMarkup (concat l) = true.
Proof. induction 1; simpl; [done|by apply ownMarkup_app]. Qed.

Lemma ownMarkup_suffix a b : ownMarkup (a ++ b) = true -> ownMarkup b = true.
Proof.
  induction a as [|c a IH]; [done|].
  change ((c :: a) ++ b) with (c :: (a ++ b)). rewrite ownMarkup_cons.
  intros [_ H]%andb_true_iff. by apply IH.
Qed.

Lemma ownMarkup_drop n s : ownMarkup s = true -> ownMarkup (drop n s) = true.
Proof. rewrite <- (take_drop n s) at 1. apply ownMarkup_suffix. Qed.

Lemma ownMarkup_plain s : 60 ∉ s -> ownMarkup s = true.
Proof.
  induction s as [|c s IH]; [done|].
  intros [Hc Hs]%not_elem_of_cons. rewrite ownMarkup_cons.
  destruct (c =? 60) eqn:E; [apply N.eqb_eq in E; congruence|]. by apply IH.
Qed.

Lemma rendererTags_ok : forallb tag_ok rendererTags = true.
Proof. by vm_compute. Qed.

Lemma tag_facts tag :
  tag ∈ rendererTags ->
  tag <> [] /\ ownMarkup tag = true /\ (42 ∉ tag) /\ (10 ∉ tag).
Proof.
  intros Hin%list_elem_of_In. pose proof rendererTags_ok as H.
  rewrite forallb_forall in H. specialize (H tag Hin). unfold tag_ok in H.
  apply andb_true_iff in H as [[Ht Ho]%andb_true_iff Hf].
  rewrite forallb_forall in Hf.
  split_and!; [by destruct tag|done| |].
  - intros Hm%list_elem_of_In. specialize (Hf _ Hm). done.
  - intros Hm%list_elem_of_In. specialize (Hf _ Hm). done.
Qed.

(** A [<] at the head of renderer markup opens a renderer tag. *)
Lemma ownMarkup_head_tag s :
  ownMarkup (60 :: s) = true ->
  exists tag rest, tag ∈ rendererTags /\ 60 :: s = tag ++ rest /\ ownMarkup rest = true.
Proof.
  intros H. pose proof H as H'. rewrite ownMarkup_cons in H.
  apply andb_true_iff in H as [Hc _]. rewrite N.eqb_refl in Hc.
  apply existsb_exists in Hc as (tag & Hin & [rest Hr]%startsWith_spec).
  exists tag, rest. split; [by apply list_elem_of_In|]. split; [done|].
  rewrite Hr in H'. by apply ownMarkup_suffix in H'.
Qed.

(** The part of renderer markup in front of a star, or of a line feed, is
    renderer markup: no tag is cut by it. *)
Lemma ownMarkup_before c x r :
  c = 42 \/ c = 10 ->
  ownMarkup (x ++ c :: r) = true -> ownMarkup x = true.
Proof.
  intros Hc. induction x as [|d x IH]; [done|].
  change ((d :: x) ++ c :: r) with (d :: (x ++ c :: r)).
  rewrite !ownMarkup_cons. intros [Hd Hx]%andb_true_iff.
  apply andb_true_iff. split; [|by apply IH].
  destruct (d =? 60); [|done].
  apply existsb_exists in Hd as (tag & Hin & Htag). apply existsb_exists.
  exists tag. split; [done|].
  apply (startsWith_cut tag (d :: x) c r); [|done].
  destruct (tag_facts tag) as (_ & _ & H42 & H10); [by apply list_elem_of_In|].
  by destruct Hc as [-> | ->].
Qed.

End OwnMarkup.

Section RenderOwn.

Implicit Types (s a b x r u tag : jsstring) (c : N).

(** Both substitutions keep renderer markup: a match begins and ends at a
    star, which no tag holds, so it never cuts a tag. *)
Lemma replace_own open close before after n s :
  ownMarkup before = true -> ownMarkup after = true ->
  (length s <= n)%nat -> ownMarkup s = true ->
  ownMarkup (replace (42 :: open) (42 :: close) before after s) = true.
Proof.
  intros Hb Ha. revert s; induction n as [|n IH]; intros s Hn Hs.
  - destruct s; [done|simpl in Hn; lia].
  - destruct s as [|c s]; [done|].
    destruct (decide (c = 60)) as [->|Hc].
    + destruct (ownMarkup_head_tag s Hs) as (tag & rest & Hin & Heq & Hrest).
      destruct (tag_facts tag Hin) as (Hne & Htag & H42 & _).
      rewrite Heq, replace_app_skip by done.
      apply ownMarkup_app; [done|]. apply IH; [|done].
      apply (f_equal length) in Heq. rewrite length_app in Heq. simpl in *.
      destruct tag; [done|simpl in Heq; lia].
    + rewrite replace_cons by (simpl; lia).
      destruct (match_here (42 :: open) (42 :: close) (c :: s)) as [[x r]|] eqn:E.
      * assert (Hr : (length r < length (c :: s))%nat).
        { apply (match_here_shorter (42 :: open) (42 :: close) _ x); [simpl; lia|done]. }
        apply match_here_Some in E. rewrite E in Hs.
        apply ownMarkup_suffix in Hs.
        assert (Hx : ownMarkup x = true).
        { apply (ownMarkup_before 42 x (close ++ r)); [by left|done]. }
        assert (Hr' : ownMarkup r = true).
        { rewrite app_assoc in Hs. by apply ownMarkup_suffix in Hs. }
        repeat apply ownMarkup_app; try done.
        apply IH; [simpl in *; lia|done].
      * rewrite ownMarkup_cons in Hs |- *.
        apply andb_true_iff in Hs as [_ Hs]. apply andb_true_iff.
        split; [|apply IH; [simpl in Hn; lia|done]].
        destruct (c =? 60) eqn:E'; [apply N.eqb_eq in E'; congruence|done].
Qed.

(** The pieces cut at line feeds are renderer markup too. *)
Lemma split_own sep n s :
  (length s <= n)%nat -> ownMarkup s = true ->
  Forall (fun p => ownMarkup p = true) (split (10 :: sep) s).
Proof.
  revert s; induction n as [|n IH]; intros s Hn Hs.
  - destruct s; [by repeat constructor|simpl in Hn; lia].
  - destruct s as [|c s]; [by repeat constructor|].
    destruct (decide (c = 60)) as [->|Hc].
    + destruct (ownMarkup_head_tag s Hs) as (tag & rest & Hin & Heq & Hrest).
      destruct (tag_facts tag Hin) as (Hne & Htag & _ & H10).
      rewrite Heq, split_app_skip by done.
      assert (IHrest : Forall (fun p => ownMarkup p = true) (split (10 :: sep) rest)).
      { apply IH; [|done]. apply (f_equal length) in Heq. rewrite length_app in Heq.
        destruct tag; [done|simpl in *; lia]. }
      destruct IHrest as [|p ps Hp Hps]; [constructor|].
      constructor; [by apply ownMarkup_app|done].
    + rewrite ownMarkup_cons in Hs. apply andb_true_iff in Hs as [_ Hs].
      rewrite split_cons by (simpl; lia).
      destruct (startsWith (10 :: sep) (c :: s)) eqn:E.
      * constructor; [done|]. apply IH.
        -- rewrite length_drop. simpl in *. lia.
        -- apply (ownMarkup_drop (length (10 :: sep)) (c :: s)).
           rewrite ownMarkup_cons, Hs.
           destruct (c =? 60) eqn:E'; [apply N.eqb_eq in E'; congruence|done].
      * assert (IHs : Forall (fun p => ownMarkup p = true) (split (10 :: sep) s)).
        { apply IH; [simpl in Hn; lia|done]. }
        destruct IHs as [|p ps Hp Hps]; [constructor|].
        constructor; [|done]. change ([c] ++ p) with (c :: p).
        rewrite ownMarkup_cons, Hp.
        destruct (c =? 60) eqn:E'; [apply N.eqb_eq in E'; congruence|done].
Qed.

Lemma renderBlock_own block :
  ownMarkup block = true -> ownMarkup (renderBlock block) = true.
Proof.
  intros Hb. unfold renderBlock, substring, join.
  repeat case_match;
    try (repeat apply ownMarkup_app; first [done|by apply ownMarkup_drop]).
  apply ownMarkup_app; [done|]. apply ownMarkup_app; [|done].
  apply ownMarkup_concat, Forall_map.
  eapply Forall_impl; [apply (split_own [] (length block)); [lia|done]|].
  intros item Hi. simpl.
  repeat apply ownMarkup_app; first [done|by apply ownMarkup_drop].
Qed.

Lemma renderBody_own report :
  ownMarkup report = true -> ownMarkup (renderBody report) = true.
Proof.
  intros Hr. unfold renderBody, join.
  apply ownMarkup_concat, Forall_map.
  eapply Forall_impl.
  - apply (split_own nl (length (inlineFormat report))); [lia|].
    unfold inlineFormat, emPass, strongPass.
    apply (replace_own [] [] _ _ (length (replace (js "**") (js "**") STRONG_OPEN STRONG_CLOSE report)));
      [done|done|lia|].
    by apply (replace_own [42] [42] _ _ (length report)).
  - intros block Hb. by apply renderBlock_own.
Qed.

End RenderOwn.

(** ** Report text and markup *)

(** C1, as stated, fails: the renderer does not escape the report.  A tag
    written in the report is copied into the markup as it is, where it opens
    an element that is not one of the renderer's. *)
Lemma report_tag_reaches_markup :
  renderBody (js "<img src=x onerror=alert(1)>")
  = P_OPEN ++ js "<img src=x onerror=alert(1)>" ++ js "</p>"
  /\ ownMarkup (renderBody (js "<img src=x onerror=alert(1)>")) = false.
Proof. split; by vm_compute. Qed.

(** A report of one plain line is copied between the paragraph tags
    unchanged, whatever its code units. *)
Lemma renderBody_plain_verbatim (report : jsstring) :
  (stars report <= 1)%nat -> 10 ∉ report ->
  startsWith (js "### ") report = false -> startsWith (js "## ") report = false ->
  startsWith (js "# ") report = false -> startsWith (js "- ") report = false ->
  renderBody report = P_OPEN ++ report ++ js "</p>".
Proof.
  intros Hs Hn H3 H2 H1 Hb. unfold renderBody.
  rewrite inlineFormat_few_stars by done.
  rewrite (split_absent (nl ++ nl) 10 nl) by done.
  unfold join. cbn [map concat]. unfold renderBlock.
  rewrite H3, H2, H1, Hb, app_nil_r. done.
Qed.

(** C1, amended: for a report text that holds no [<], every [<] of the
    produced markup opens one of the tags the renderer itself writes (the
    block wrappers and the two emphasis elements), so the report adds no
    element of its own.  The renderer does no escaping, so this is not so for
    a report that holds a [<]. *)
Theorem renderReport_own_markup (report : jsstring) :
  60 ∉ report -> ownMarkup (renderBody report) = true.
Proof. intros H. by apply renderBody_own, ownMarkup_plain. Qed.

Lemma renderReport_own_markup_witness :
  ownMarkup (renderBody (js "# Tides" ++ nl ++ nl ++ js "**bold** and *em* & 1 > 0")) = true.
Proof.
  apply renderReport_own_markup.
  apply lacks_check. vm_compute. reflexivity.
Defined.

(** ** Sample runs *)

Example inline_bold_and_em :
  inlineFormat (js "**bold** and *em*")
  = STRONG_OPEN ++ js "bold" ++ STRONG_CLOSE ++ js " and "
    ++ EM_OPEN ++ js "em" ++ EM_CLOSE.
Proof. by vm_compute. Qed.

Example inline_strong_across_lines :
  inlineFormat (js "**a" ++ nl ++ js "b**")
  = EM_OPEN ++ EM_CLOSE ++ js "a" ++ nl ++ js "b" ++ EM_OPEN ++ EM_CLOSE.
Proof. by vm_compute. Qed.

Example split_leftmost :
  split (nl ++ nl) (js "a" ++ nl ++ nl ++ nl ++ js "b") = [js "a"; nl ++ js "b"].
Proof. by vm_compute. Qed.

Example session_ocean_currents :
  let s0 := typed (js "Ocean currents") (loaded emptyPage) in
  let (s1, out) := handle click s0 in
  let s2 := fst (handle (sub_topics_generated [js "Gyres"; js "Tides"]) s1) in
  let s3 := fst (handle (sub_topic_update 0 (js "complete")) s2) in
  let s4 := fst (handle (final_report (js "## Summary" ++ nl ++ nl ++ js "Done.")) s3) in
  out = [start_research (js "Ocean currents")]
  /\ in_disabled (topicInput s1) = true
  /\ subtopics_ul s2 = Some [templateRow (js "Gyres"); templateRow (js "Tides")]
  /\ (exists r, subtopics_ul s3 = Some [r; templateRow (js "Tides")] /\ displays r Complete)
  /\ renderBody (js "## Summary" ++ nl ++ nl ++ js "Done.")
     = toHTML [Heading 2 (js "Summary"); Paragraph (js "Done.")]
  /\ pn_display (reportContainer s4) = js "block"
  /\ currentTopic s4 = js "Ocean currents"
  /\ btn_disabled (startResearchBtn s4) = false.
Proof.
  split_and!; try by vm_compute.
  eexists. split; [by vm_compute|]. by split.
Qed.

(** * Further properties of the script *)

(** ** Blank topics *)

Section Trim.

Implicit Types (s : jsstring).

Lemma trimStart_nil s : trimStart s = [] <-> blank s.
Proof.
  unfold blank. induction s as [|c s IH]; simpl.
  - split; [constructor|done].
  - destruct (isWhiteSpace c) eqn:E.
    + rewrite IH. split; [by constructor|by inversion 1].
    + split; [done|]. inversion 1; congruence.
Qed.

Lemma trimStart_head s c r : trimStart s = c :: r -> isWhiteSpace c = false.
Proof.
  induction s as [|d s IH]; simpl; [done|].
  destruct (isWhiteSpace d) eqn:E; [done|]. by intros [= <- _].
Qed.

Lemma blank_rev s : blank (rev s) <-> blank s.
Proof.
  unfold blank. rewrite !Forall_forall. split; intros H c Hc; apply H.
  - apply list_elem_of_In. apply list_elem_of_In in Hc. by apply in_rev in Hc.
  - apply list_elem_of_In. apply list_elem_of_In in Hc. by apply in_rev.
Qed.

Lemma blank_trimStart s : blank (trimStart s) <-> blank s.
Proof.
  unfold blank. induction s as [|c s IH]; simpl; [done|].
  destruct (isWhiteSpace c) eqn:E; [|done].
  rewrite IH. split; [by constructor|by inversion 1].
Qed.

(** [trim] gives the empty string exactly for a string of white space. *)
Lemma trim_nil s : trim s = [] <-> blank s.
Proof.
  unfold trim. rewrite <- blank_trimStart, <- blank_rev, <- trimStart_nil.
  split; [intros H; apply (f_equal (@rev N)) in H; by rewrite rev_involutive in H|].
  by intros ->.
Qed.

End Trim.

(** X3: the submit action rejects the topic, sending nothing, exactly when
    every code unit of the topic field is white space (the empty field
    included). *)
Theorem startResearch_rejects_blank (st : UI) :
  snd (startResearch st) = [] <-> blank (in_value (topicInput st)).
Proof.
  rewrite <- trim_nil. unfold startResearch.
  destruct (negb (truthy (trim (in_value (topicInput st))))) eqn:E; simpl.
  - apply not_truthy_nil in E. done.
  - split; [discriminate|]. intros H. apply not_truthy_nil in H. congruence.
Qed.

(** ** An accepted submission *)

(** X2: an accepted submission leaves nothing of the previous session: the
    page it produces is determined by the submitted topic alone.  The error
    text is empty, the subtopic list is gone, the report panel is empty and
    hidden, the status text is the ready line, the current topic is the
    submitted one and the field is disabled. *)
Theorem startResearch_supersedes (st1 st2 : UI) :
  in_value (topicInput st1) = in_value (topicInput st2) ->
  trim (in_value (topicInput st1)) <> [] ->
  let st' := fst (startResearch st1) in
  st' = fst (startResearch st2)
  /\ errorMessage st' = []
  /\ subtopics_ul st' = None
  /\ reportContainer st' = {| pn_innerHTML := []; pn_display := js "none" |}
  /\ sl_textContent (statusMessage st') = js "Ready to start your research."
  /\ currentTopic st' = in_value (topicInput st1)
  /\ topicInput st' = {| in_value := in_value (topicInput st1); in_disabled := true |}.
Proof.
  intros Hv Ht.
  assert (E : negb (truthy (trim (in_value (topicInput st1)))) = false).
  { destruct (negb _) eqn:E; [|done]. apply not_truthy_nil in E. congruence. }
  unfold startResearch. rewrite <- Hv, E. simpl. split_and!; try done.
  unfold resetUI, setUIState. simpl. by rewrite <- Hv.
Qed.

Lemma startResearch_supersedes_witness :
  fst (startResearch (typed (js "Tides") emptyPage))
  = fst (startResearch
           (typed (js "Tides")
              (on_research_error (js "timeout")
                 (renderSubTopicList [js "Gyres"] emptyPage)))).
Proof.
  apply (startResearch_supersedes (typed (js "Tides") emptyPage)
           (typed (js "Tides")
              (on_research_error (js "timeout")
                 (renderSubTopicList [js "Gyres"] emptyPage)))).
  - reflexivity.
  - vm_compute. discriminate.
Defined.

(** X4: once a submission is accepted, a subtopic update changes nothing:
    the list of the previous session is gone, so updates are dropped until a
    new plan arrives. *)
Theorem update_after_submit_dropped (st : UI) (index : Z) (status : jsstring) :
  trim (in_value (topicInput st)) <> [] ->
  on_sub_topic_update index status (fst (startResearch st)) = fst (startResearch st).
Proof.
  intros Ht.
  assert (E : negb (truthy (trim (in_value (topicInput st)))) = false).
  { destruct (negb _) eqn:E; [|done]. apply not_truthy_nil in E. congruence. }
  unfold startResearch. rewrite E. done.
Qed.

Lemma update_after_submit_dropped_witness :
  let st := typed (js "Tides") (renderSubTopicList [js "Gyres"] emptyPage) in
  on_sub_topic_update 0 (js "complete") (fst (startResearch st)) = fst (startResearch st).
Proof.
  apply update_after_submit_dropped. vm_compute. discriminate.
Defined.

(** ** What holds of every page the script can reach *)

Section Reach.

Implicit Types (st : UI) (ev : Event).

Lemma set_subtopics_ul_same st : set_subtopics_ul (subtopics_ul st) st = st.
Proof. by destruct st. Qed.

(** An update touches the rows of the list only. *)
Lemma updateSubTopicStatus_rows index status st rows :
  subtopics_ul st = Some rows ->
  updateSubTopicStatus index status st
  = set_subtopics_ul (Some (patchRows index status rows)) st.
Proof.
  intros H. unfold updateSubTopicStatus, patchRows. rewrite H.
  destruct (children_at rows index); [|by rewrite <- H, set_subtopics_ul_same].
  destruct (statusInfo_get status); [done|by rewrite <- H, set_subtopics_ul_same].
Qed.

Lemma updateSubTopicStatus_frame index status st :
  updateSubTopicStatus index status st
  = set_subtopics_ul (subtopics_ul (updateSubTopicStatus index status st)) st.
Proof.
  destruct (subtopics_ul st) as [rows|] eqn:E.
  - by rewrite (updateSubTopicStatus_rows _ _ _ rows E).
  - unfold updateSubTopicStatus. destruct st; simpl in *. by subst.
Qed.

Lemma setStatusColor_frame cls st :
  setStatusColor cls st = set_statusMessage (statusMessage (setStatusColor cls st)) st.
Proof. unfold setStatusColor. case_match; [done|by destruct st]. Qed.

Lemma controls_consistent_ext st st' :
  topicInput st' = topicInput st -> startResearchBtn st' = startResearchBtn st ->
  controls_consistent st -> controls_consistent st'.
Proof. unfold controls_consistent. by intros -> ->. Qed.

Lemma controls_consistent_setUIState isResearching st :
  controls_consistent (setUIState isResearching st).
Proof. unfold controls_consistent. split_and!; reflexivity. Qed.

Lemma handle_controls_consistent ev st :
  controls_consistent st -> controls_consistent (fst (handle ev st)).
Proof.
  intros H. destruct ev; cbn [handle fst].
  - by apply (controls_consistent_ext st).
  - apply (controls_consistent_ext st); [| |done].
    + unfold on_sub_topics_generated. by rewrite setStatusColor_frame.
    + unfold on_sub_topics_generated. by rewrite setStatusColor_frame.
  - apply (controls_consistent_ext st); [| |done].
    + unfold on_sub_topic_update. by rewrite updateSubTopicStatus_frame.
    + unfold on_sub_topic_update. by rewrite updateSubTopicStatus_frame.
  - apply controls_consistent_setUIState.
  - apply controls_consistent_setUIState.
  - apply controls_consistent_setUIState.
  - unfold startResearch.
    destruct (negb (truthy (trim (in_value (topicInput st))))); cbn [fst].
    + by apply (controls_consistent_ext st).
    + apply controls_consistent_setUIState.
  - unfold startResearch.
    destruct (negb (truthy (trim (in_value (topicInput st))))); cbn [fst].
    + by apply (controls_consistent_ext st).
    + apply controls_consistent_setUIState.
Qed.

Lemma handle_currentTopic ev st :
  currentTopic (fst (handle ev st)) = currentTopic st
  \/ ((ev = click \/ ev = keyup_Enter)
      /\ trim (in_value (topicInput st)) <> []
      /\ currentTopic (fst (handle ev st)) = in_value (topicInput st)).
Proof.
  destruct ev; simpl; try (by left).
  - left. by rewrite setStatusColor_frame.
  - left. unfold on_sub_topic_update. by rewrite updateSubTopicStatus_frame.
  - left. unfold on_final_report. simpl. by rewrite setStatusColor_frame.
  - unfold startResearch.
    destruct (negb (truthy (trim (in_value (topicInput st))))) eqn:E; simpl; [by left|].
    right. split_and!; [by left| |done].
    intros H. apply not_truthy_nil in H. congruence.
  - unfold startResearch.
    destruct (negb (truthy (trim (in_value (topicInput st))))) eqn:E; simpl; [by left|].
    right. split_and!; [by right| |done].
    intros H. apply not_truthy_nil in H. congruence.
Qed.

Lemma handle_busy_topic ev st :
  deliverable ev st ->
  (in_disabled (topicInput st) = true -> currentTopic st = in_value (topicInput st)) ->
  in_disabled (topicInput (fst (handle ev st))) = true ->
  currentTopic (fst (handle ev st)) = in_value (topicInput (fst (handle ev st))).
Proof.
  destruct ev; simpl; intros Hd Hi; try done.
  - by rewrite setStatusColor_frame.
  - unfold on_sub_topic_update. by rewrite updateSubTopicStatus_frame.
  - unfold startResearch.
    by destruct (negb (truthy (trim (in_value (topicInput st))))) eqn:E.
  - unfold startResearch.
    by destruct (negb (truthy (trim (in_value (topicInput st))))) eqn:E.
Qed.

Lemma handle_span_gone ev st :
  sl_span (statusMessage st) = None ->
  sl_span (statusMessage (fst (handle ev st))) = None.
Proof.
  intros H. destruct ev; simpl; try done.
  - unfold setStatusColor. by rewrite H.
  - unfold on_sub_topic_update. by rewrite updateSubTopicStatus_frame.
  - unfold on_final_report, setStatusColor. simpl. by rewrite H.
  - unfold startResearch.
    by destruct (negb (truthy (trim (in_value (topicInput st))))) eqn:E.
  - unfold startResearch.
    by destruct (negb (truthy (trim (in_value (topicInput st))))) eqn:E.
Qed.

Lemma run_cons ev evs st :
  run (ev :: evs) st
  = (fst (run evs (fst (handle ev st))),
     snd (handle ev st) ++ snd (run evs (fst (handle ev st)))).
Proof.
  simpl. destruct (handle ev st) as [st1 out1]. simpl.
  by destruct (run evs st1) as [st2 out2].
Qed.

Lemma run_span_gone evs st :
  sl_span (statusMessage st) = None ->
  sl_span (statusMessage (fst (run evs st))) = None.
Proof.
  revert st; induction evs as [|ev evs IH]; intros st H; [done|].
  rewrite run_cons. simpl. by apply IH, handle_span_gone.
Qed.

End Reach.

(** X1: on every page the script can reach, the button agrees with the
    topic field: it shows the waiting state exactly while the field is
    disabled, and it is disabled exactly while the field is disabled or
    blank. *)
Theorem reachable_controls_consistent (st : UI) :
  reachable st -> controls_consistent st.
Proof.
  induction 1 as [doc|st ev Hr IH Hd].
  - by unfold controls_consistent.
  - by apply handle_controls_consistent.
Qed.

Lemma reachable_controls_consistent_witness :
  controls_consistent
    (fst (handle (status_update (js "Planning..."))
            (fst (handle click (fst (handle (input (js "Tides")) (loaded emptyPage))))))).
Proof.
  apply reachable_controls_consistent.
  apply (reach_step _ (status_update (js "Planning..."))); [|exact I].
  apply (reach_step _ click); [|exact I].
  apply (reach_step _ (input (js "Tides"))); [|reflexivity].
  apply reach_loaded.
Defined.

(** X12: the current topic, which titles the report, changes only when a
    submission is accepted, and then becomes the content of the topic field;
    on every reachable page with the field disabled it equals the content of
    the field. *)
Theorem currentTopic_follows_submit (st : UI) (ev : Event) :
  reachable st ->
  (currentTopic (fst (handle ev st)) = currentTopic st
   \/ ((ev = click \/ ev = keyup_Enter)
       /\ trim (in_value (topicInput st)) <> []
       /\ currentTopic (fst (handle ev st)) = in_value (topicInput st)))
  /\ (in_disabled (topicInput st) = true -> currentTopic st = in_value (topicInput st)).
Proof.
  intros Hr. split; [apply handle_currentTopic|].
  induction Hr as [doc|st ev' Hr IH Hd]; [done|].
  by apply handle_busy_topic.
Qed.

Lemma currentTopic_follows_submit_witness :
  let busy := fst (handle click (fst (handle (input (js "Tides")) (loaded emptyPage)))) in
  in_disabled (topicInput busy) = true
  /\ currentTopic busy = in_value (topicInput busy).
Proof.
  intros busy. split; [reflexivity|].
  apply (currentTopic_follows_submit busy click).
  - apply (reach_step _ click); [|exact I].
    apply (reach_step _ (input (js "Tides"))); [|reflexivity].
    apply reach_loaded.
  - reflexivity.
Defined.

(** X9: writing the status text removes the coloured dot from the status
    line, and nothing brings it back: after a [status_update], whatever
    events follow, the status line has no span; so on a page that then holds
    no element brought by a payload, a request to colour the dot changes
    nothing on the page. *)
Theorem status_dot_gone_after_status_update
    (message : jsstring) (evs : list Event) (cls : jsstring) (st : UI) :
  let st' := fst (run evs (on_status_update message st)) in
  injected st' = false ->
  sl_span (statusMessage st') = None /\ setStatusColor cls st' = st'.
Proof.
  intros st' _.
  assert (H : sl_span (statusMessage st') = None) by by apply run_span_gone.
  split; [done|]. unfold setStatusColor. by rewrite H.
Qed.

Lemma status_dot_gone_after_status_update_witness :
  let st' := fst (run [sub_topics_generated [js "Gyres"]; final_report (js "Done.")]
                      (on_status_update (js "Planning...") emptyPage)) in
  setStatusColor (js "bg-emerald-500") st' = st'.
Proof.
  intros st'.
  apply (status_dot_gone_after_status_update (js "Planning...")
           [sub_topics_generated [js "Gyres"]; final_report (js "Done.")]
           (js "bg-emerald-500") emptyPage).
  reflexivity.
Defined.

(** X11: whatever the events of a run, every message the page sends is a
    [start_research] whose topic is not blank, and a run without a click or
    an Enter key sends nothing. *)
Theorem run_sends_only_topics (evs : list Event) (st : UI) :
  (forall topic, start_research topic ∈ snd (run evs st) -> ~ blank topic)
  /\ (click ∉ evs -> keyup_Enter ∉ evs -> snd (run evs st) = []).
Proof.
  split.
  - revert st; induction evs as [|ev evs IH]; intros st topic.
    + simpl. by intros H%elem_of_nil.
    + rewrite run_cons. simpl. intros [H|H]%elem_of_app; [|by eapply IH].
      assert (Hs : forall s, start_research topic ∈ snd (startResearch s) -> ~ blank topic).
      { intros s. unfold startResearch.
        destruct (negb (truthy (trim (in_value (topicInput s))))) eqn:E; simpl.
        - by intros H'%elem_of_nil.
        - intros H'%list_elem_of_singleton. injection H' as ->.
          rewrite <- trim_nil. intros Ht. apply not_truthy_nil in Ht. congruence. }
      destruct ev; simpl in H; try (by apply elem_of_nil in H); by eapply Hs.
  - revert st; induction evs as [|ev evs IH]; intros st Hc He; [done|].
    apply not_elem_of_cons in Hc as [Hc1 Hc]. apply not_elem_of_cons in He as [He1 He].
    rewrite run_cons. simpl. rewrite IH by done.
    by destruct ev.
Qed.

Lemma run_sends_only_topics_witness :
  snd (run [status_update (js "Planning..."); final_report (js "Done.")] emptyPage) = [].
Proof.
  apply (proj2 (run_sends_only_topics
                  [status_update (js "Planning..."); final_report (js "Done.")] emptyPage)).
  - intros H. repeat (apply elem_of_cons in H as [H|H]; [discriminate H|]).
    by apply elem_of_nil in H.
  - intros H. repeat (apply elem_of_cons in H as [H|H]; [discriminate H|]).
    by apply elem_of_nil in H.
Defined.

(** ** The subtopic list *)

Section RowsMore.

Implicit Types (st : UI) (rows : list Row) (index : Z) (status : jsstring).

Lemma templateRow_displays_Pending topic : displays (templateRow topic) Pending.
Proof. by split. Qed.

Lemma map_label_insert rows (i : nat) old new :
  rows !! i = Some old -> li_label new = li_label old ->
  map li_label (<[i := new]> rows) = map li_label rows.
Proof.
  revert i; induction rows as [|r rows IH]; intros [|i] Hi Hl; simpl in *; try done.
  - injection Hi as ->. by rewrite Hl.
  - f_equal. by apply IH.
Qed.

Lemma children_at_lookup rows index listItem :
  children_at rows index = Some listItem ->
  (0 <= index)%Z /\ rows !! Z.to_nat index = Some listItem.
Proof.
  unfold children_at. destruct (0 <=? index)%Z eqn:E; [|done].
  apply Z.leb_le in E. done.
Qed.

Lemma patchRows_labels index status rows :
  map li_label (patchRows index status rows) = map li_label rows.
Proof.
  unfold patchRows. destruct (children_at rows index) as [old|] eqn:E; [|done].
  destruct (statusInfo_get status) as [i|]; [|done].
  apply children_at_lookup in E as [_ E]. by apply (map_label_insert _ _ old).
Qed.



Lemma patchRows_again index status status' rows :
  statusInfo_get status' <> None ->
  patchRows index status' (patchRows index status rows) = patchRows index status' rows.
Proof.
  intros Hs. unfold patchRows at 2.
  destruct (children_at rows index) as [old|] eqn:E; [|done].
  destruct (statusInfo_get status) as [i|]; [|done].
  unfold patchRows. rewrite E.
  destruct (statusInfo_get status') as [i'|]; [|done].
  pose proof E as [H0 Hl]%children_at_lookup.
  assert (Hlt : (Z.to_nat index < length rows)%nat) by by eapply lookup_lt_Some.
  unfold children_at. destruct (0 <=? index)%Z eqn:E0; [|apply Z.leb_gt in E0; lia].
  rewrite list_lookup_insert_eq by done.
  by rewrite list_insert_insert_eq.
Qed.

End RowsMore.

(** X5: on a page that holds no element brought by a payload, a plan
    whose labels hold no tag replaces the subtopic list whatever rows and
    statuses the page held before: the new list has one row per subtopic,
    labelled in order, every row shows Pending in the classes that a
    [pending] update writes, and no earlier row or status is kept.  The rest
    of the page, the colour of the status dot apart, is unchanged. *)
Theorem sub_topics_generated_replaces (sub_topics : list jsstring) (st : UI) :
  injected st = false ->
  existsb hasMarkup sub_topics = false ->
  let st' := on_sub_topics_generated sub_topics st in
  exists rows,
    subtopics_ul st' = Some rows
    /\ map li_label rows = sub_topics
    /\ length rows = length sub_topics
    /\ Forall (fun r => displays r Pending) rows
    /\ subtopics_ul st' = subtopics_ul (on_sub_topics_generated sub_topics emptyPage)
    /\ injected st' = false
    /\ set_statusMessage (statusMessage st) (set_subtopics_ul (subtopics_ul st) st') = st.
Proof.
  intros Hi Hl. exists (map templateRow sub_topics).
  assert (Hinj : injected (on_sub_topics_generated sub_topics st) = false).
  { unfold on_sub_topics_generated, renderSubTopicList.
    cbn [injected set_subtopics_ul set_injected]. rewrite Hl, orb_false_r.
    rewrite setStatusColor_frame. exact Hi. }
  split_and!.
  - done.
  - rewrite map_map. simpl. apply map_id.
  - apply length_map.
  - apply Forall_map, Forall_true. intros topic. apply templateRow_displays_Pending.
  - done.
  - exact Hinj.
  - unfold on_sub_topics_generated, renderSubTopicList.
    cbn [set_subtopics_ul set_injected set_statusMessage topicInput startResearchBtn
         errorMessage statusMessage subtopics_ul reportContainer currentTopic injected].
    rewrite Hl, orb_false_r. rewrite setStatusColor_frame. by destruct st.
Qed.

Lemma sub_topics_generated_replaces_witness :
  let st := on_sub_topic_update 0 (js "complete")
              (renderSubTopicList [js "Old"] emptyPage) in
  exists rows,
    subtopics_ul (on_sub_topics_generated [js "Gyres"; js "Tides"] st) = Some rows
    /\ map li_label rows = [js "Gyres"; js "Tides"]
    /\ Forall (fun r => displays r Pending) rows.
Proof.
  intros st.
  destruct (sub_topics_generated_replaces [js "Gyres"; js "Tides"] st)
    as (rows & H1 & H2 & _ & H4 & _); [reflexivity|reflexivity|].
  exists rows. split_and!; assumption.
Defined.

(** X6: on a page that holds no element brought by a payload, whatever the
    index and the status string, an update adds no row, removes none and
    changes no label, and it changes nothing on the page but the rows of the
    list. *)
Theorem updateSubTopicStatus_keeps_rows (index : Z) (status : jsstring) (st : UI) :
  injected st = false ->
  let st' := on_sub_topic_update index status st in
  option_map (map li_label) (subtopics_ul st')
  = option_map (map li_label) (subtopics_ul st)
  /\ option_map (@length Row) (subtopics_ul st')
     = option_map (@length Row) (subtopics_ul st)
  /\ set_subtopics_ul (subtopics_ul st) st' = st.
Proof.
  intros _. unfold on_sub_topic_update.
  destruct (subtopics_ul st) as [rows|] eqn:E.
  - rewrite (updateSubTopicStatus_rows _ _ _ rows E). simpl.
    pose proof (patchRows_labels index status rows) as Hl.
    split_and!.
    + by rewrite Hl.
    + f_equal. apply (f_equal (@length jsstring)) in Hl. by rewrite !length_map in Hl.
    + rewrite <- E. by destruct st.
  - unfold updateSubTopicStatus. rewrite E. simpl. rewrite E. simpl.
    split_and!; try done. rewrite <- E. by destruct st.
Qed.

Lemma updateSubTopicStatus_keeps_rows_witness :
  let st := renderSubTopicList [js "Gyres"; js "Tides"] emptyPage in
  option_map (map li_label) (subtopics_ul (on_sub_topic_update 1 (js "constructor") st))
  = option_map (map li_label) (subtopics_ul st).
Proof.
  intros st.
  apply (updateSubTopicStatus_keeps_rows 1 (js "constructor") st). reflexivity.
Defined.



(** X8: the page after an update whose status the table resolves does not
    depend on an earlier update of the same row: the last write wins, and
    repeating an update changes nothing more. *)
Theorem updateSubTopicStatus_overwrites
    (index : Z) (status status' : jsstring) (st : UI) :
  statusInfo_get status' <> None ->
  on_sub_topic_update index status' (on_sub_topic_update index status st)
  = on_sub_topic_update index status' st
  /\ on_sub_topic_update index status' (on_sub_topic_update index status' st)
     = on_sub_topic_update index status' st.
Proof.
  intros Hs. unfold on_sub_topic_update.
  destruct (subtopics_ul st) as [rows|] eqn:E.
  - rewrite (updateSubTopicStatus_rows index status st rows E).
    rewrite (updateSubTopicStatus_rows index status' st rows E).
    rewrite (updateSubTopicStatus_rows index status' _ (patchRows index status rows))
      by done.
    rewrite (updateSubTopicStatus_rows index status' _ (patchRows index status' rows))
      by done.
    by rewrite !patchRows_again.
  - unfold updateSubTopicStatus. by rewrite !E.
Qed.

Lemma updateSubTopicStatus_overwrites_witness :
  let st := renderSubTopicList [js "Gyres"; js "Tides"] emptyPage in
  on_sub_topic_update 1 (js "complete") (on_sub_topic_update 1 (js "in-progress") st)
  = on_sub_topic_update 1 (js "complete") st.
Proof.
  apply (updateSubTopicStatus_overwrites 1 (js "in-progress") (js "complete")).
  vm_compute. discriminate.
Defined.

(** ** The final report *)


(** ** Well-formed emphasis *)

Section Emphasis.

Implicit Types (s u x v : jsstring).

Lemma lazy_dots_eq close s :
  lazy_dots close s =
  if startsWith close s then Some ([], drop (length close) s)
  else match s with
       | [] => None
       | c :: s' =>
           if isLineTerminator c then None
           else match lazy_dots close s' with
                | Some (x, r) => Some (c :: x, r)
                | None => None
                end
       end.
Proof. by destruct s. Qed.

(** The lazy span ends at the first closing delimiter that follows a span
    free of stars and of line terminators. *)
Lemma lazy_dots_found close' x v :
  42 ∉ x -> oneLine x ->
  lazy_dots (42 :: close') (x ++ (42 :: close') ++ v) = Some (x, v).
Proof.
  intros Hx Hl. induction x as [|c x IH].
  - rewrite lazy_dots_eq. cbn [app].
    change (42 :: close' ++ v) with ((42 :: close') ++ v).
    by rewrite startsWith_app, drop_app_length.
  - apply not_elem_of_cons in Hx as [Hc Hx]. inversion Hl as [|? ? Hlc Hlx]; subst.
    rewrite lazy_dots_eq.
    change ((c :: x) ++ (42 :: close') ++ v) with (c :: (x ++ (42 :: close') ++ v)).
    cbn [startsWith].
    destruct (42 =? c) eqn:E; [apply N.eqb_eq in E; congruence|].
    cbn [andb]. rewrite Hlc, IH by done. done.
Qed.

Lemma stars_notin s : stars s = 0%nat <-> 42 ∉ s.
Proof.
  split; [apply stars_0_notin|]. unfold stars. intros H.
  induction s as [|c s IH]; [done|].
  apply not_elem_of_cons in H as [Hc Hs].
  rewrite filter_cons_False by congruence. by apply IH.
Qed.

Lemma strongPass_span x v :
  42 ∉ x -> oneLine x ->
  strongPass (js "**" ++ x ++ js "**" ++ v)
  = STRONG_OPEN ++ x ++ STRONG_CLOSE ++ strongPass v.
Proof.
  intros Hx Hl. unfold strongPass.
  change (js "**" ++ x ++ js "**" ++ v) with (42 :: 42 :: x ++ js "**" ++ v).
  rewrite replace_cons by (simpl; lia).
  assert (Hm : match_here (js "**") (js "**") (42 :: 42 :: x ++ js "**" ++ v)
               = Some (x, v)).
  { unfold match_here. change (js "**") with [42; 42].
    cbn [startsWith length drop]. rewrite !N.eqb_refl. cbn [andb].
    by apply (lazy_dots_found [42]). }
  by rewrite Hm.
Qed.

Lemma emPass_span x v :
  42 ∉ x -> oneLine x ->
  emPass (js "*" ++ x ++ js "*" ++ v) = EM_OPEN ++ x ++ EM_CLOSE ++ emPass v.
Proof.
  intros Hx Hl. unfold emPass.
  change (js "*" ++ x ++ js "*" ++ v) with (42 :: x ++ js "*" ++ v).
  rewrite replace_cons by (simpl; lia).
  assert (Hm : match_here (js "*") (js "*") (42 :: x ++ js "*" ++ v) = Some (x, v)).
  { unfold match_here. change (js "*") with [42].
    cbn [startsWith length drop]. rewrite !N.eqb_refl. cbn [andb].
    by apply (lazy_dots_found []). }
  by rewrite Hm.
Qed.

Lemma strongPass_single_star v :
  startsWith (js "*") v = false -> strongPass (42 :: v) = 42 :: strongPass v.
Proof.
  intros Hv. unfold strongPass. rewrite replace_cons by (simpl; lia).
  unfold match_here. change (js "**") with (42 :: js "*").
  cbn [startsWith]. by rewrite Hv, andb_false_r.
Qed.

End Emphasis.

(** X13: a strong-emphasis span, [**x**] with [x] free of stars and of line
    terminators, after a stretch free of stars, becomes the strong element
    around [x]; the text before it is kept and the text after it is
    formatted on its own. *)
Theorem inlineFormat_strong (u x v : jsstring) :
  stars u = 0%nat -> stars x = 0%nat -> oneLine x ->
  inlineFormat (u ++ js "**" ++ x ++ js "**" ++ v)
  = u ++ STRONG_OPEN ++ x ++ STRONG_CLOSE ++ inlineFormat v.
Proof.
  intros Hu%stars_notin Hx%stars_notin Hl. unfold inlineFormat.
  unfold strongPass at 1. change (js "**") with (42 :: js "*") at 1.
  rewrite replace_app_skip by done.
  change (replace (42 :: js "*") (js "**") STRONG_OPEN STRONG_CLOSE
            (js "**" ++ x ++ js "**" ++ v))
    with (strongPass (js "**" ++ x ++ js "**" ++ v)).
  rewrite strongPass_span by done.
  assert (Hw : 42 ∉ u ++ STRONG_OPEN ++ x ++ STRONG_CLOSE).
  { rewrite !not_elem_of_app. split_and!; try done; apply lacks_check; by vm_compute. }
  unfold emPass at 1. change (js "*") with [42] at 1.
  replace (u ++ STRONG_OPEN ++ x ++ STRONG_CLOSE ++ strongPass v)
    with ((u ++ STRONG_OPEN ++ x ++ STRONG_CLOSE) ++ strongPass v)
    by by rewrite <- !app_assoc.
  rewrite replace_app_skip by done. by rewrite <- !app_assoc.
Qed.

Lemma inlineFormat_strong_witness :
  inlineFormat (js "Tides are " ++ js "**" ++ js "strong" ++ js "**" ++ js " here")
  = js "Tides are " ++ STRONG_OPEN ++ js "strong" ++ STRONG_CLOSE
    ++ inlineFormat (js " here").
Proof.
  apply inlineFormat_strong.
  - reflexivity.
  - reflexivity.
  - unfold oneLine. repeat constructor.
Defined.

(** X14: an emphasis span, [*x*] with [x] not empty and free of stars and of
    line terminators, after a stretch free of stars and not followed by a
    further star, becomes the emphasis element around [x]; the text before it
    is kept and the text after it is formatted on its own. *)
Theorem inlineFormat_em (u x v : jsstring) :
  stars u = 0%nat -> stars x = 0%nat -> x <> [] -> oneLine x ->
  startsWith (js "*") v = false ->
  inlineFormat (u ++ js "*" ++ x ++ js "*" ++ v)
  = u ++ EM_OPEN ++ x ++ EM_CLOSE ++ inlineFormat v.
Proof.
  intros Hu%stars_notin Hx%stars_notin Hne Hl Hv. unfold inlineFormat.
  assert (H1 : strongPass (u ++ js "*" ++ x ++ js "*" ++ v)
               = u ++ js "*" ++ x ++ js "*" ++ strongPass v).
  { unfold strongPass at 1. change (js "**") with (42 :: js "*") at 1.
    rewrite replace_app_skip by done. f_equal.
    change (replace (42 :: js "*") (js "**") STRONG_OPEN STRONG_CLOSE
              (js "*" ++ x ++ js "*" ++ v))
      with (strongPass (42 :: (x ++ js "*" ++ v))).
    rewrite strongPass_single_star.
    2:{ destruct x as [|c x]; [done|]. apply not_elem_of_cons in Hx as [Hc _].
        change (js "*") with [42]. cbn [app startsWith].
        destruct (42 =? c) eqn:E; [apply N.eqb_eq in E; congruence|done]. }
    change (js "*" ++ x ++ js "*" ++ strongPass v)
      with (42 :: (x ++ js "*" ++ strongPass v)). f_equal.
    unfold strongPass at 1. change (js "**") with (42 :: js "*") at 1.
    rewrite replace_app_skip by done. f_equal.
    change (replace (42 :: js "*") (js "**") STRONG_OPEN STRONG_CLOSE (js "*" ++ v))
      with (strongPass (42 :: v)).
    by rewrite strongPass_single_star. }
  rewrite H1. unfold emPass at 1. change (js "*") with [42] at 1.
  rewrite replace_app_skip by done. f_equal.
  change (replace [42] (js "*") EM_OPEN EM_CLOSE (js "*" ++ x ++ js "*" ++ strongPass v))
    with (emPass (js "*" ++ x ++ js "*" ++ strongPass v)).
  by rewrite emPass_span.
Qed.

Lemma inlineFormat_em_witness :
  inlineFormat (js "see " ++ js "*" ++ js "em" ++ js "*" ++ js " and **bold**")
  = js "see " ++ EM_OPEN ++ js "em" ++ EM_CLOSE ++ inlineFormat (js " and **bold**").
Proof.
  apply inlineFormat_em.
  - reflexivity.
  - reflexivity.
  - discriminate.
  - unfold oneLine. repeat constructor.
  - reflexivity.
Defined.

(** ** Cutting and joining *)

Section Cutting.

Implicit Types (s a b sep : jsstring) (l : list jsstring).

Lemma joinWith_cons sep x l :
  l <> [] -> joinWith sep (x :: l) = x ++ sep ++ joinWith sep l.
Proof. by destruct l. Qed.

Lemma joinWith_prepend sep p l :
  l <> [] -> joinWith sep (prepend p l) = p ++ joinWith sep l.
Proof.
  destruct l as [|x [|y l]]; [done|done|]. intros _.
  cbn [prepend]. rewrite !joinWith_cons by done. by rewrite <- app_assoc.
Qed.

Lemma joinWith_split_len sep n s :
  (0 < length sep)%nat -> (length s <= n)%nat -> joinWith sep (split sep s) = s.
Proof.
  intros Hsep. revert s; induction n as [|n IH]; intros s Hn.
  - destruct s; [done|simpl in Hn; lia].
  - destruct s as [|c s]; [done|]. rewrite split_cons by done.
    destruct (startsWith sep (c :: s)) eqn:E.
    + rewrite joinWith_cons by apply split_nonempty.
      rewrite IH by (rewrite length_drop; simpl in *; lia).
      simpl app. by apply startsWith_drop.
    + rewrite joinWith_prepend by apply split_nonempty.
      rewrite IH by (simpl in *; lia). done.
Qed.

Lemma split_blank_app_len n a b :
  (length a <= n)%nat -> last a <> Some 10 ->
  split (nl ++ nl) (a ++ nl ++ nl ++ b) = split (nl ++ nl) a ++ split (nl ++ nl) b.
Proof.
  revert a; induction n as [|n IH]; intros a Hn Hl.
  - destruct a; [|simpl in Hn; lia].
    change ([] ++ nl ++ nl ++ b) with (nl ++ nl ++ b). by rewrite split_blank_leading.
  - destruct a as [|c a].
    { change ([] ++ nl ++ nl ++ b) with (nl ++ nl ++ b). by rewrite split_blank_leading. }
    assert (Hlen : (length a <= n)%nat) by (simpl in Hn; lia).
    destruct (decide (c = 10)) as [->|Hc].
    + destruct a as [|d a]; [done|].
      rewrite last_cons_cons in Hl.
      destruct (decide (d = 10)) as [->|Hd].
      * change ((10 :: 10 :: a) ++ nl ++ nl ++ b) with (nl ++ nl ++ (a ++ nl ++ nl ++ b)).
        change (10 :: 10 :: a) with (nl ++ nl ++ a).
        rewrite !split_blank_leading. simpl app. f_equal.
        apply IH; [simpl in Hlen; lia|].
        destruct a; [done|by rewrite last_cons_cons in Hl].
      * change ((10 :: d :: a) ++ nl ++ nl ++ b) with (10 :: ((d :: a) ++ nl ++ nl ++ b)).
        rewrite !(split_cons _ 10) by (simpl; lia).
        rewrite !startsWith_blank.
        change ((d :: a) ++ nl ++ nl ++ b) with (d :: (a ++ nl ++ nl ++ b)).
        rewrite !startsWith_nl.
        destruct (10 =? d) eqn:E; [apply N.eqb_eq in E; congruence|].
        rewrite andb_false_r.
        change (d :: (a ++ nl ++ nl ++ b)) with ((d :: a) ++ nl ++ nl ++ b).
        rewrite IH by done.
        destruct (split (nl ++ nl) (d :: a)) eqn:Es; [by apply split_nonempty in Es|done].
    + change ((c :: a) ++ nl ++ nl ++ b) with (c :: (a ++ nl ++ nl ++ b)).
      rewrite !split_blank_cons_other by done.
      rewrite IH; [|done|destruct a; [done|by rewrite last_cons_cons in Hl]].
      destruct (split (nl ++ nl) a) eqn:Es; [by apply split_nonempty in Es|done].
Qed.

Lemma renderBody_pieces report :
  renderBody report
  = concat (map (fun block => renderBlock (inlineFormat block))
                (split (nl ++ nl) report)).
Proof.
  unfold renderBody, join. rewrite inlineFormat_split by by right.
  by rewrite map_map.
Qed.

Lemma split_nl_joinWith l :
  l <> [] -> Forall (fun t => 10 ∉ t) l -> split nl (joinWith nl l) = l.
Proof.
  intros Hne Hl. induction Hl as [|x l Hx Hl IH]; [done|].
  destruct l as [|y l].
  - simpl. by apply (split_absent nl 10 []).
  - rewrite joinWith_cons by done. change (nl ++ joinWith nl (y :: l))
      with (10 :: joinWith nl (y :: l)).
    rewrite split_nl_first by done. f_equal. by apply IH.
Qed.

End Cutting.

(** X15: cutting a text at a separator loses nothing: the pieces joined
    again with the separator give the text back, for the blank-line
    separator of the blocks and the line feed of the bullet lines alike. *)
Theorem split_joinWith (sep s : jsstring) :
  (0 < length sep)%nat -> joinWith sep (split sep s) = s.
Proof. intros Hsep. by apply (joinWith_split_len sep (length s)). Qed.

Lemma split_joinWith_witness :
  joinWith (nl ++ nl) (split (nl ++ nl) (js "# Tides" ++ nl ++ nl ++ nl ++ js "Body"))
  = js "# Tides" ++ nl ++ nl ++ nl ++ js "Body".
Proof. apply split_joinWith. simpl. lia. Defined.

(** X16: blocks are rendered independently: the markup of two texts set one
    after the other with a blank line between them is the markup of the
    first followed by the markup of the second, provided the first does not
    end in a line feed. *)
Theorem renderBody_blank_app (a b : jsstring) :
  last a <> Some 10 ->
  renderBody (a ++ nl ++ nl ++ b) = renderBody a ++ renderBody b.
Proof.
  intros Hl. rewrite !renderBody_pieces.
  rewrite (split_blank_app_len (length a)) by done.
  by rewrite map_app, concat_app.
Qed.

Lemma renderBody_blank_app_witness :
  renderBody (js "## Summary" ++ nl ++ nl ++ js "*Done.*")
  = renderBody (js "## Summary") ++ renderBody (js "*Done.*").
Proof. apply renderBody_blank_app. vm_compute. discriminate. Defined.

(** X17: a bullet list written one item per line, each line the marker
    followed by an item that holds no line feed, is rendered as the list of
    exactly those items. *)
Theorem renderBlock_bullet_items (items : list jsstring) :
  items <> [] -> Forall (fun t => 10 ∉ t) items ->
  renderBlock (joinWith nl (map (fun t => js "- " ++ t) items))
  = UL_OPEN ++ concat (map (fun t => LI_OPEN ++ t ++ js "</li>") items) ++ js "</ul>".
Proof.
  intros Hne Hl. rewrite renderBlock_classify.
  assert (Hc : classify (joinWith nl (map (fun t => js "- " ++ t) items))
               = BulletList items).
  { assert (Hs : split nl (joinWith nl (map (fun t => js "- " ++ t) items))
                 = map (fun t => js "- " ++ t) items).
    { apply split_nl_joinWith; [by destruct items|].
      apply Forall_map. eapply Forall_impl; [exact Hl|].
      intros t Ht. cbv beta. apply not_elem_of_app. split; [|done].
      apply lacks_check. by vm_compute. }
    destruct items as [|t items]; [done|].
    assert (Hp : exists r, joinWith nl (map (fun t => js "- " ++ t) (t :: items))
                           = js "- " ++ r).
    { destruct items; simpl; eauto. }
    destruct Hp as [r Hr].
    assert (Hd : forall r', classify (js "- " ++ r')
                            = BulletList (map (drop 2) (split nl (js "- " ++ r'))))
      by done.
    rewrite Hr, Hd, <- Hr, Hs, map_map. f_equal. apply map_id. }
  by rewrite Hc.
Qed.

Lemma renderBlock_bullet_items_witness :
  renderBlock (joinWith nl (map (fun t => js "- " ++ t) [js "a"; js "b"]))
  = UL_OPEN ++ concat (map (fun t => LI_OPEN ++ t ++ js "</li>") [js "a"; js "b"])
    ++ js "</ul>".
Proof.
  apply renderBlock_bullet_items; [discriminate|].
  repeat constructor; apply lacks_check; reflexivity.
Defined.

(** ** Markers and statuses *)

(** X18: only a block that starts with one of the four markers is a heading
    or a list.  A block whose first code unit is neither [#] nor [-], an
    indented marker for one, is a paragraph holding the whole block; so is a
    block that starts with four [#]; and so is the empty block. *)
Theorem renderBlock_paragraph :
  (forall c t, c <> 35 -> c <> 45 ->
     renderBlock (c :: t) = P_OPEN ++ (c :: t) ++ js "</p>")
  /\ (forall t, renderBlock (js "####" ++ t) = P_OPEN ++ (js "####" ++ t) ++ js "</p>")
  /\ renderBlock [] = P_OPEN ++ js "</p>".
Proof.
  split_and!; [|done|done].
  intros c t H35 H45. unfold renderBlock.
  change (js "### ") with (35 :: js "## "). change (js "## ") with (35 :: js "# ").
  change (js "# ") with (35 :: js " "). change (js "- ") with (45 :: js " ").
  cbn [startsWith].
  destruct (35 =? c) eqn:E1; [apply N.eqb_eq in E1; congruence|].
  destruct (45 =? c) eqn:E2; [apply N.eqb_eq in E2; congruence|done].
Qed.

Lemma renderBlock_paragraph_witness :
  renderBlock (js " # indented") = P_OPEN ++ js " # indented" ++ js "</p>".
Proof.
  apply (proj1 renderBlock_paragraph 32 (js "# indented")); discriminate.
Defined.

(** X19: the four statuses look different: the classes that an update
    writes on a row tell which status was written, so a row shows at most
    one status. *)
Theorem displays_unique (r : Row) (s s' : Status) :
  displays r s -> displays r s' -> s = s'.
Proof.
  destruct s, s'; try reflexivity; intros [H1 _] [H2 _]; exfalso;
    pose proof (eq_trans (eq_sym H1) H2) as E;
    apply streq_eq in E; vm_compute in E; discriminate E.
Qed.

Lemma displays_unique_witness :
  displays (templateRow (js "Tides")) Pending /\ Pending = Pending.
Proof.
  split; [by split|].
  apply (displays_unique (templateRow (js "Tides")) Pending Pending); by split.
Defined.

(** ** Progress events *)

(** X20: the events that report progress, in any number and order, leave
    the topic field, the button, the error text and the current topic as
    they were and send nothing, so a running session stays busy until a
    report or an error arrives; and when no payload among them brings a tag
    they leave the report panel as it was. *)
Theorem progress_keeps_controls (evs : list Event) (st : UI) :
  Forall progress evs ->
  let st' := fst (run evs st) in
  topicInput st' = topicInput st
  /\ startResearchBtn st' = startResearchBtn st
  /\ errorMessage st' = errorMessage st
  /\ currentTopic st' = currentTopic st
  /\ snd (run evs st) = []
  /\ (injected st' = false -> injected st = false /\ reportContainer st' = reportContainer st).
Proof.
  intros H. revert st; induction H as [|ev evs Hev Hevs IH]; intros st; [done|].
  rewrite run_cons. cbn [fst snd]. specialize (IH (fst (handle ev st))).
  cbv zeta in IH. destruct IH as (-> & -> & -> & -> & -> & IH).
  assert (Hc : forall cls s, injected (setStatusColor cls s) = injected s
                             /\ reportContainer (setStatusColor cls s) = reportContainer s).
  { intros cls s. by rewrite setStatusColor_frame. }
  destruct ev; try done; cbn [handle fst snd app] in *.
  - unfold on_sub_topics_generated in *.
    split_and!; try done; try (by rewrite setStatusColor_frame).
    intros Hf. destruct (IH Hf) as [Hi ->].
    unfold renderSubTopicList in *.
    cbn [injected reportContainer set_subtopics_ul set_injected] in *.
    apply orb_false_iff in Hi as [Hi _].
    destruct (Hc (js "bg-sky-500") st) as [Hc1 Hc2]. by rewrite Hc1 in Hi.
  - unfold on_sub_topic_update in *.
    split_and!; try done; try (by rewrite updateSubTopicStatus_frame).
    intros Hf. destruct (IH Hf) as [Hi ->].
    rewrite updateSubTopicStatus_frame in Hi. by rewrite updateSubTopicStatus_frame.
Qed.

Lemma progress_keeps_controls_witness :
  let busy := fst (handle click (typed (js "Tides") (loaded emptyPage))) in
  let st' := fst (run [status_update (js "Planning...");
                       sub_topics_generated [js "Gyres"];
                       sub_topic_update 0 (js "in-progress")] busy) in
  in_disabled (topicInput busy) = true
  /\ topicInput st' = topicInput busy
  /\ reportContainer st' = reportContainer busy.
Proof.
  intros busy st'. split; [reflexivity|].
  assert (Hp : Forall progress
                 [status_update (js "Planning..."); sub_topics_generated [js "Gyres"];
                  sub_topic_update 0 (js "in-progress")]) by repeat constructor.
  destruct (progress_keeps_controls _ busy Hp) as (H1 & _ & _ & _ & _ & H6).
  split; [exact H1|]. apply H6. reflexivity.
Defined.

